(** * sat_app.py: the TLE catalogue reader and the position pipeline

    A shallow embedding of the two computational functions of
    [src/sat_app.py]:

    - [get_tle_data] (lines 9-29), the grouping of the fetched text into
      satellite records, as a pure function of the response text;
    - [calculate_satellite_positions] (lines 31-57), the per-instant loop
      over the [ephem] objects, in an exception monad, with the third-party
      calls ([ephem], [numpy.degrees], [str]) taken as an interface.

    Python strings are modelled by [string]; a character is a code point
    below 256. *)

From Stdlib Require Import Bool Arith Lia List ZArith.
From Stdlib Require Import Ascii String DecimalString.
Import ListNotations.

Local Open Scope string_scope.
Local Open Scope list_scope.
Local Open Scope nat_scope.

(** ** Python string primitives used by the source *)

Module PyStr.

(** [str.isspace] on one character, for code points below 256:
    TAB, LF, VT, FF, CR, FS, GS, RS, US, SPACE, NEL and NBSP. *)
Definition is_space (c : ascii) : bool :=
  let n := nat_of_ascii c in
  ((9 <=? n) && (n <=? 13)) || ((28 <=? n) && (n <=? 32))
  || (n =? 133) || (n =? 160).

(** [s.lstrip()] *)
Fixpoint lstrip (s : string) : string :=
  match s with
  | EmptyString => EmptyString
  | String c s' => if is_space c then lstrip s' else s
  end.

(** [s.rstrip()] *)
Fixpoint rstrip (s : string) : string :=
  match s with
  | EmptyString => EmptyString
  | String c s' =>
      match rstrip s' with
      | EmptyString => if is_space c then EmptyString else String c EmptyString
      | r => String c r
      end
  end.

(** [s.strip()] *)
Definition strip (s : string) : string := rstrip (lstrip s).

Definition newline : ascii := ascii_of_nat 10.

(** [s.split('\n')]: one piece more than there are newlines. *)
Fixpoint split_newline (s : string) : list string :=
  match s with
  | EmptyString => [EmptyString]
  | String c s' =>
      if Ascii.eqb c newline then EmptyString :: split_newline s'
      else match split_newline s' with
           | piece :: rest => String c piece :: rest
           | [] => [String c EmptyString]
           end
  end.

(** [s[a:b]] for non-negative constant bounds; like Python's slice it
    truncates at the end of the string instead of failing. *)
Definition slice (a b : nat) (s : string) : string := substring a (b - a) s.

(** [range(start, stop, step)] for a positive step. *)
Fixpoint range_from (fuel start stop step : nat) : list nat :=
  match fuel with
  | O => []
  | S fuel' =>
      if start <? stop then start :: range_from fuel' (start + step) stop step
      else []
  end.

Definition range (start stop step : nat) : list nat :=
  range_from stop start stop step.

End PyStr.

(** ** The catalogue reader *)

(** The dictionary built at lines 23-28. *)
Record Satellite : Type := mkSatellite {
  name : string;
  norad_id : string;
  line1 : string;
  line2 : string
}.

Module Catalog.
Import PyStr.

(** Line 13: [response.text.strip().split('\n')]. *)
Definition tle_lines (response_text : string) : list string :=
  split_newline (strip response_text).

(** Lines 17-28, one iteration of the loop at index [i]. *)
Definition visit_group (tle_data : list string) (satellites : list Satellite)
    (i : nat) : list Satellite :=
  if i + 2 <? List.length tle_data then
    let name := strip (nth i tle_data EmptyString) in
    let line1 := nth (i + 1) tle_data EmptyString in
    let line2 := nth (i + 2) tle_data EmptyString in
    let norad_id := slice 2 7 line1 in
    satellites ++ [mkSatellite name norad_id line1 line2]
  else satellites.

(** Lines 15-16 and 29: the loop over [range(0, len(tle_data), 3)]. *)
Definition group_records (tle_data : list string) : list Satellite :=
  fold_left (visit_group tle_data) (range 0 (List.length tle_data) 3) [].

(** [get_tle_data], as a function of the text of the HTTP response. *)
Definition get_tle_data (response_text : string) : list Satellite :=
  group_records (tle_lines response_text).

(** The record the loop builds for the [k]-th group of three lines. *)
Definition record_at (tle_data : list string) (k : nat) : Satellite :=
  let l1 := nth (3 * k + 1) tle_data EmptyString in
  mkSatellite (strip (nth (3 * k) tle_data EmptyString)) (slice 2 7 l1) l1
    (nth (3 * k + 2) tle_data EmptyString).

End Catalog.

(** ** The line checksum of the parser contract *)

Module Checksum.

(** Modelled from the spec: the mod-10 line checksum named in the parser
    contract (section 4.1); [get_tle_data] has no counterpart of it.  A digit
    counts for its value, a minus sign for one, any other character for
    nothing; the sum of the first 68 columns modulo 10 is compared with the
    digit in column 69. *)
Definition digit_of (c : ascii) : option nat :=
  let n := nat_of_ascii c in
  if (48 <=? n) && (n <=? 57) then Some (n - 48) else None.

(** Modelled from the spec: what one character adds to the checksum. *)
Definition weight (c : ascii) : nat :=
  match digit_of c with
  | Some d => d
  | None => if Ascii.eqb c "-"%char then 1 else 0
  end.

Fixpoint weight_sum (s : string) : nat :=
  match s with
  | EmptyString => 0
  | String c s' => weight c + weight_sum s'
  end.

(** Modelled from the spec: the digit the first 68 columns call for. *)
Definition expected_digit (line : string) : nat :=
  weight_sum (substring 0 68 line) mod 10.

(** Modelled from the spec: the line carries that digit in column 69. *)
Definition checksum_ok (line : string) : bool :=
  match get 68 line with
  | Some c =>
      match digit_of c with
      | Some d => d =? expected_digit line
      | None => false
      end
  | None => false
  end.

End Checksum.

(** ** The position pipeline *)

(** A call either raises (left) or returns (right). *)
Definition result (E A : Type) : Type := (E + A)%type.

Definition ret {E A : Type} (a : A) : result E A := inr a.

Definition raise {E A : Type} (e : E) : result E A := inl e.

Definition bind {E A B : Type} (m : result E A) (k : A -> result E B)
  : result E B :=
  match m with
  | inl e => inl e
  | inr a => k a
  end.

Notation "x <- m ;; k" := (bind m (fun x => k))
  (at level 61, m at next level, right associativity).

(** Two outcomes agree: the same exception, or related values. *)
Definition same_outcome {E A : Type} (R : A -> A -> Prop)
    (m1 m2 : result E A) : Prop :=
  match m1, m2 with
  | inl e1, inl e2 => e1 = e2
  | inr a1, inr a2 => R a1 a2
  | _, _ => False
  end.

(** The attributes of an [ephem.Observer] the source assigns.  The
    remaining ones keep the constants the constructor gives them. *)
Module Observer.
Record t (Instant Angle : Type) : Type := make {
  date : Instant;
  lat : Angle;
  lon : Angle
}.
Arguments make {Instant Angle} _ _ _.
Arguments date {Instant Angle} _.
Arguments lat {Instant Angle} _.
Arguments lon {Instant Angle} _.
End Observer.

(** The dictionary appended at lines 51-55. *)
Module Position.
Record t (Instant Float : Type) : Type := make {
  time : Instant;
  lat : Float;
  lon : Float
}.
Arguments make {Instant Float} _ _ _.
Arguments time {Instant Float} _.
Arguments lat {Instant Float} _.
Arguments lon {Instant Float} _.
End Position.

(** The third-party calls of [calculate_satellite_positions]: none of them
    is code of this repository.  Any of the [ephem] calls may raise. *)
Record Runtime : Type := {
  Exn : Type;        (* Python exceptions *)
  Instant : Type;    (* [datetime.datetime] *)
  Float : Type;      (* binary64 numbers *)
  Angle : Type;      (* [ephem.Angle] *)
  Body : Type;       (* the state of an [ephem.EarthSatellite] *)
  str : Float -> string;
  angle0 : Angle;    (* latitude and longitude of a fresh observer *)
  to_angle : string -> result Exn Angle;
                     (* the conversion done by assigning a string to
                        [observer.lat] or [observer.lon] *)
  readtle : string -> string -> string -> result Exn Body;
  compute : Body -> Observer.t Instant Angle -> result Exn Body;
  sublat : Body -> result Exn Float;
  sublong : Body -> result Exn Float;
  degrees : Float -> Float   (* [numpy.degrees] *)
}.

(** The variables the loop of lines 43-55 reads and writes. *)
Record LoopState (Instant Angle Float Body : Type) : Type := mkLoopState {
  observer : Observer.t Instant Angle;
  satellite : Body;
  positions : list (Position.t Instant Float)
}.
Arguments mkLoopState {Instant Angle Float Body} _ _ _.
Arguments observer {Instant Angle Float Body} _.
Arguments satellite {Instant Angle Float Body} _.
Arguments positions {Instant Angle Float Body} _.

Section Pipeline.

Context (rt : Runtime).

Definition observer_t : Type := Observer.t (Instant rt) (Angle rt).
Definition position_t : Type := Position.t (Instant rt) (Float rt).
Definition state_t : Type :=
  LoopState (Instant rt) (Angle rt) (Float rt) (Body rt).

(** Line 36: [ephem.Observer()] takes its date from the clock. *)
Definition new_observer (clock : Instant rt) : observer_t :=
  Observer.make clock (angle0 rt) (angle0 rt).

(** Lines 33-41: everything before the loop. *)
Definition setup (clock : Instant rt) (sat : Satellite)
    (observer_lat observer_lon : Float rt) : result (Exn rt) state_t :=
  let positions := [] in
  let observer := new_observer clock in
  a <- to_angle rt (str rt observer_lat) ;;
  let observer := Observer.make (Observer.date observer) a
                    (Observer.lon observer) in
  b <- to_angle rt (str rt observer_lon) ;;
  let observer := Observer.make (Observer.date observer)
                    (Observer.lat observer) b in
  satellite <- readtle rt (name sat) (line1 sat) (line2 sat) ;;
  ret (mkLoopState observer satellite positions).

(** Lines 44-55: one iteration of the loop. *)
Definition track_instant (st : state_t) (time : Instant rt)
  : result (Exn rt) state_t :=
  let observer := Observer.make time (Observer.lat (observer st))
                    (Observer.lon (observer st)) in
  satellite <- compute rt (satellite st) observer ;;
  sublat <- sublat rt satellite ;;
  let lat := degrees rt sublat in
  sublong <- sublong rt satellite ;;
  let lon := degrees rt sublong in
  ret (mkLoopState observer satellite
         (positions st ++ [Position.make time lat lon])).

(** Line 43: [for time in times]. *)
Fixpoint for_each_time (st : state_t) (times : list (Instant rt))
  : result (Exn rt) state_t :=
  match times with
  | [] => ret st
  | time :: rest => st' <- track_instant st time ;; for_each_time st' rest
  end.

(** [calculate_satellite_positions]; the clock is the one input the
    source reads without naming it. *)
Definition calculate_satellite_positions (clock : Instant rt)
    (sat : Satellite) (observer_lat observer_lon : Float rt)
    (times : list (Instant rt)) : result (Exn rt) (list position_t) :=
  st0 <- setup clock sat observer_lat observer_lon ;;
  st <- for_each_time st0 times ;;
  ret (positions st).

End Pipeline.

(** ** A small runtime, to run the pipeline on concrete inputs *)

Module Toy.
Import PyStr.

Local Open Scope Z_scope.

(** Instants are seconds on a calendar of 365-day years; numbers are
    fixed-point, in millionths; angles are whole degrees. *)
Record body : Type := mkBody {
  epoch : Z;        (* seconds *)
  elapsed : Z;      (* date of the last [compute], relative to [epoch] *)
  seen_from : Z     (* latitude of the observer of the last [compute] *)
}.

Definition day : Z := 86400.

Definition parse_int (s : string) : option Z :=
  option_map Z.of_int (NilZero.int_of_string s).

Definition toy_str (x : Z) : string := NilZero.string_of_int (Z.to_int x).

Definition toy_to_angle (s : string) : result string Z :=
  match parse_int s with
  | Some z => ret z
  | None => raise "ValueError: too many components in sexagesimal string"%string
  end.

(** Columns 19-20 and 21-23 of line 1 hold the year and the day of year of
    the epoch; both element lines must carry the right checksum digit. *)
Definition toy_readtle (name line1 line2 : string) : result string body :=
  if Checksum.checksum_ok line1 && Checksum.checksum_ok line2 then
    match parse_int (slice 18 20 line1), parse_int (slice 20 23 line1) with
    | Some yy, Some ddd => ret (mkBody ((yy * 365 + ddd) * day) 0 0)
    | _, _ => raise "ValueError: line does not conform to tle format"%string
    end
  else raise "ValueError: incorrect TLE checksum at end of line"%string.

Definition too_far : string :=
  "ValueError: TLE elements are valid for a few weeks around their epoch".

Definition toy_compute (b : body) (o : Observer.t Z Z) : result string body :=
  let dt := Observer.date o - epoch b in
  if 365 * day <? Z.abs dt then
    raise too_far
  else ret (mkBody (epoch b) dt (Observer.lat o)).

(** A ground track that depends on the elapsed time only, in microradians. *)
Definition toy_sublat (b : body) : result string Z :=
  ret ((elapsed b * 1100) mod 1800001 - 900000).

Definition toy_sublong (b : body) : result string Z :=
  ret ((elapsed b * 4363) mod 6283185 - 3141593).

Definition toy_degrees (x : Z) : Z := x * 180000000 / 3141593.

Definition runtime : Runtime := {|
  Exn := string;
  Instant := Z;
  Float := Z;
  Angle := Z;
  Body := body;
  str := toy_str;
  angle0 := 0;
  to_angle := toy_to_angle;
  readtle := toy_readtle;
  compute := toy_compute;
  sublat := toy_sublat;
  sublong := toy_sublong;
  degrees := toy_degrees
|}.

(** Bodies that agree on all but the observer they were last seen from. *)
Definition same_orbit (b1 b2 : body) : Prop :=
  epoch b1 = epoch b2 /\ elapsed b1 = elapsed b2.

Definition iss_name : string := "ISS (ZARYA)".
Definition iss_line1 : string :=
  "1 25544U 98067A   08264.51782528 -.00002182  00000-0 -11606-4 0  2927".
Definition iss_line2 : string :=
  "2 25544  51.6416 247.4627 0006703 130.5360 325.0288 15.72125391563537".

(** Line 1 with its last digit changed from 7 to 8. *)
Definition iss_line1_altered : string :=
  "1 25544U 98067A   08264.51782528 -.00002182  00000-0 -11606-4 0  2928".

Definition nl : string := String newline EmptyString.

Definition iss_text : string :=
  (iss_name ++ nl ++ iss_line1 ++ nl ++ iss_line2 ++ nl)%string.

Definition iss_text_altered : string :=
  (iss_name ++ nl ++ iss_line1_altered ++ nl ++ iss_line2 ++ nl)%string.

Definition iss : Satellite :=
  mkSatellite iss_name "25544" iss_line1 iss_line2.

(** A response whose second line is shorter than 7 characters. *)
Definition short_text : string :=
  ("X" ++ nl ++ "1 2" ++ nl ++ "z")%string.

(** The epoch of the ISS elements on the toy calendar. *)
Definition iss_epoch : Z := (8 * 365 + 264) * day.

(** Modelled from the spec: the staleness test of the propagator contract
    (section 4.2), elapsed time since the epoch above a threshold;
    [calculate_satellite_positions] has no counterpart of it. *)
Definition stale (threshold epoch instant : Z) : bool :=
  threshold <? instant - epoch.

(** Three instants: the epoch, a minute later, thirty days later. *)
Definition track_times : list Z :=
  [iss_epoch; iss_epoch + 60; iss_epoch + 30 * day].

Definition track : list (Position.t Z Z) :=
  [Position.make 275097600 (-51566196) (-180000000);
   Position.make 275097660 (-47784675) (-165001113);
   Position.make 277689600 51475496 132043380].

(** The loop variables on entry, for an observer at 28 N 91 E and a clock
    reading 0, and after the iteration for the epoch. *)
Definition st0 : state_t runtime :=
  mkLoopState (Observer.make 0 28 91)
    (mkBody iss_epoch 0 0) [].

Definition st1 : state_t runtime :=
  mkLoopState (Observer.make iss_epoch 28 91)
    (mkBody iss_epoch 0 28)
    [Position.make 275097600 (-51566196) (-180000000)].

End Toy.

(** ** The rest of the script: selection, sampling, table and map *)

(** Texts as lists of lines, to state what the reader does line by line. *)
Module Lines.
Import PyStr.

(** The character [c] occurs in [s]. *)
Fixpoint occurs (c : ascii) (s : string) : bool :=
  match s with
  | EmptyString => false
  | String c' s' => Ascii.eqb c c' || occurs c s'
  end.

(** ['\n'.join(lines)] *)
Fixpoint join (lines : list string) : string :=
  match lines with
  | [] => EmptyString
  | [l] => l
  | l :: rest => (l ++ String newline (join rest))%string
  end.

(** Every character of [s] is white space ([s] may be empty). *)
Fixpoint blank (s : string) : bool :=
  match s with
  | EmptyString => true
  | String c s' => is_space c && blank s'
  end.

(** [s] is not empty and its first character is not white space. *)
Definition starts_clean (s : string) : bool :=
  match s with
  | EmptyString => false
  | String c _ => negb (is_space c)
  end.

(** [s] is not empty and its last character is not white space. *)
Fixpoint ends_clean (s : string) : bool :=
  match s with
  | EmptyString => false
  | String c EmptyString => negb (is_space c)
  | String _ s' => ends_clean s'
  end.

End Lines.

(** Exceptions the script raises without the help of [ephem]. *)
Inductive builtin_exn : Type :=
| OverflowError
| StopIteration
| TypeError
| KeyError.

(** An exception of the script: one of its own, or one of the library's. *)
Inductive script_exn (E : Type) : Type :=
| Builtin (b : builtin_exn)
| Library (e : E).
Arguments Builtin {E} _.
Arguments Library {E} _.

Definition lift_library {E A : Type} (m : result E A)
  : result (script_exn E) A :=
  match m with
  | inl e => inl (Library e)
  | inr a => inr a
  end.

Definition lift_builtin {E A : Type} (m : result builtin_exn A)
  : result (script_exn E) A :=
  match m with
  | inl b => inl (Builtin b)
  | inr a => inr a
  end.

(** A list comprehension whose element expression may raise: the elements
    are evaluated in order and the first exception ends the evaluation. *)
Fixpoint comprehension {E A B : Type} (f : A -> result E B) (l : list A)
  : result E (list B) :=
  match l with
  | [] => ret []
  | a :: rest =>
      b <- f a ;;
      bs <- comprehension f rest ;;
      ret (b :: bs)
  end.

(** *** Satellite selection (lines 126-150) *)

Module Selection.
Import PyStr.

(** [next((sat for sat in satellites if test(sat)), None)] *)
Fixpoint next_or_none (test : Satellite -> bool) (satellites : list Satellite)
  : option Satellite :=
  match satellites with
  | [] => None
  | sat :: rest => if test sat then Some sat else next_or_none test rest
  end.

(** Line 130: the options of the select box. *)
Definition options (satellites : list Satellite) : list string :=
  map name satellites.

(** [sat['name'] == selected_satellite]; the select box gives [None] when
    it has no option, and [None] equals no string. *)
Definition name_is (selected_satellite : option string) (sat : Satellite)
  : bool :=
  match selected_satellite with
  | Some s => String.eqb (name sat) s
  | None => false
  end.

(** Line 133: [next(sat for sat in ... if sat['name'] == selected)], with no
    default: [StopIteration] when nothing matches. *)
Definition select_by_name (satellites : list Satellite)
    (selected_satellite : option string) : result builtin_exn Satellite :=
  match next_or_none (name_is selected_satellite) satellites with
  | Some sat => ret sat
  | None => raise StopIteration
  end.

(** What the script knows of the variable [satellite] when it reaches the
    button: unbound, or bound to a record or to [None]. *)
Inductive binding : Type :=
| Unbound
| Bound (satellite : option Satellite).

(** Lines 141-144: nothing is bound for an empty input; otherwise the
    first record whose identifier equals the stripped input, or [None]. *)
Definition select_by_norad (satellites : list Satellite)
    (norad_input : string) : binding :=
  match norad_input with
  | EmptyString => Unbound
  | _ =>
      Bound (next_or_none
               (fun sat => String.eqb (norad_id sat) (strip norad_input))
               satellites)
  end.

End Selection.

(** *** Dates, durations and the clock format (lines 158-159, 167, 172) *)

Module Datetime.

Local Open Scope Z_scope.

(** A naive [datetime.datetime], as the microseconds elapsed since
    0001-01-01 00:00:00.  The type ends with year 9999, on the day of
    ordinal 3652059. *)
Definition datetime : Type := Z.

Definition us_per_second : Z := 1000000.
Definition us_per_minute : Z := 60 * us_per_second.
Definition us_per_hour : Z := 3600 * us_per_second.
Definition us_per_day : Z := 86400 * us_per_second.
Definition max_ordinal : Z := 3652059.

Definition in_range (t : Z) : bool :=
  (0 <=? t) && (t <? max_ordinal * us_per_day).

(** [timedelta(seconds=k)] for an integer [k], in microseconds; the number
    of days of a [timedelta] is at most 999999999 in absolute value. *)
Definition timedelta_seconds (k : Z) : result builtin_exn Z :=
  if Z.abs (k / 86400) <=? 999999999 then ret (k * us_per_second)
  else raise OverflowError.

(** [t + timedelta(seconds=k)] *)
Definition add_seconds (t : datetime) (k : Z) : result builtin_exn datetime :=
  delta <- timedelta_seconds k ;;
  if in_range (t + delta) then ret (t + delta) else raise OverflowError.

Definition hour (t : datetime) : Z := (t / us_per_hour) mod 24.
Definition minute (t : datetime) : Z := (t / us_per_minute) mod 60.
Definition second (t : datetime) : Z := (t / us_per_second) mod 60.

Definition digit_char (d : Z) : ascii := ascii_of_nat (48 + Z.to_nat d).

(** A number below 100, zero-padded to two digits. *)
Definition two_digits (n : Z) : string :=
  String (digit_char (n / 10)) (String (digit_char (n mod 10)) EmptyString).

(** [t.strftime('%H:%M:%S')] *)
Definition strftime_HMS (t : datetime) : string :=
  (two_digits (hour t) ++ ":" ++ two_digits (minute t) ++ ":"
   ++ two_digits (second t))%string.

(** The second of the day [t] falls in. *)
Definition second_of_day (t : datetime) : Z := (t / us_per_second) mod 86400.

(** [range(n)] for an integer [n]. *)
Definition range_int (n : Z) : list Z :=
  map Z.of_nat (PyStr.range 0 (Z.to_nat n) 1).

(** Line 159: [[current_time + timedelta(seconds=i*time_interval)
    for i in range(num_samples)]]. *)
Definition sample_times (current_time : datetime)
    (num_samples time_interval : Z) : result builtin_exn (list datetime) :=
  comprehension (fun i => add_seconds current_time (i * time_interval))
    (range_int num_samples).

(** Line 172: the duration the page announces, in seconds. *)
Definition tracking_duration (num_samples time_interval : Z) : Z :=
  (num_samples - 1) * time_interval.

End Datetime.

(** *** The map (lines 59-97) *)

Module Plot.

Record line_style : Type := mkLine { width : Z; line_color : string }.
Record marker_style : Type := mkMarker { size : Z; marker_color : string }.

(** The arguments given to [go.Scattergeo]. *)
Record scattergeo (Float : Type) : Type := mkScattergeo {
  lon : list Float;
  lat : list Float;
  mode : string;
  line : option line_style;
  marker : marker_style;
  trace_name : string
}.
Arguments mkScattergeo {Float} _ _ _ _ _ _.
Arguments lon {Float} _.
Arguments lat {Float} _.
Arguments mode {Float} _.
Arguments line {Float} _.
Arguments marker {Float} _.
Arguments trace_name {Float} _.

(** The [geo] dictionary of the layout. *)
Record geo_layout : Type := mkGeo {
  projection_type : string;
  showland : bool;
  showcountries : bool;
  showocean : bool;
  countrycolor : string;
  landcolor : string;
  oceancolor : string
}.

(** A figure: its traces, in the order they were added, and its layout. *)
Record figure (Float : Type) : Type := mkFigure {
  data : list (scattergeo Float);
  title : string;
  showlegend : bool;
  geo : geo_layout
}.
Arguments mkFigure {Float} _ _ _ _.
Arguments data {Float} _.
Arguments title {Float} _.
Arguments showlegend {Float} _.
Arguments geo {Float} _.

(** [create_map] *)
Definition create_map {Instant Float : Type}
    (positions : list (Position.t Instant Float))
    (observer_lat observer_lon : Float) : figure Float :=
  let fig := [] in
  let fig :=
    fig ++ [mkScattergeo (map Position.lon positions)
              (map Position.lat positions)
              "lines+markers" (Some (mkLine 2 "red")) (mkMarker 8 "red")
              "Satellite Path"] in
  let fig :=
    fig ++ [mkScattergeo [observer_lon] [observer_lat]
              "markers" None (mkMarker 10 "blue") "Observer Location"] in
  mkFigure fig "Satellite Position Visualization" true
    (mkGeo "equirectangular" true true true
       "rgb(204, 204, 204)" "rgb(243, 243, 243)" "rgb(230, 230, 250)").

End Plot.

(** *** The tracking action (lines 153-181) *)

(** The third-party calls, for the instants the script works with: the
    [datetime] objects it builds itself. *)
Record Host : Type := {
  host_exn : Type;
  host_float : Type;
  host_angle : Type;
  host_body : Type;
  host_str : host_float -> string;
  host_angle0 : host_angle;
  host_to_angle : string -> result host_exn host_angle;
  host_readtle : string -> string -> string -> result host_exn host_body;
  host_compute :
    host_body -> Observer.t Datetime.datetime host_angle ->
    result host_exn host_body;
  host_sublat : host_body -> result host_exn host_float;
  host_sublong : host_body -> result host_exn host_float;
  host_degrees : host_float -> host_float
}.

Definition runtime_of (h : Host) : Runtime := {|
  Exn := host_exn h;
  Instant := Datetime.datetime;
  Float := host_float h;
  Angle := host_angle h;
  Body := host_body h;
  str := host_str h;
  angle0 := host_angle0 h;
  to_angle := host_to_angle h;
  readtle := host_readtle h;
  compute := host_compute h;
  sublat := host_sublat h;
  sublong := host_sublong h;
  degrees := host_degrees h
|}.

Module Script.
Import Datetime Selection.

(** What the page shows after a successful run. *)
Record page (Float : Type) : Type := mkPage {
  tracking_name : string;                   (* line 171 *)
  tracking_norad_id : string;
  total_duration : Z;                       (* line 172 *)
  update_every : Z;                         (* line 173 *)
  table : list (string * Float * Float);    (* lines 166-167, 177 *)
  chart : Plot.figure Float                 (* lines 180-181 *)
}.
Arguments mkPage {Float} _ _ _ _ _ _.
Arguments tracking_name {Float} _.
Arguments tracking_norad_id {Float} _.
Arguments total_duration {Float} _.
Arguments update_every {Float} _.
Arguments table {Float} _.
Arguments chart {Float} _.

Inductive outcome (Float : Type) : Type :=
| PleaseSelectFirst                         (* line 155 *)
| Shown (p : page Float).
Arguments PleaseSelectFirst {Float}.
Arguments Shown {Float} _.

(** Lines 166-167: the data frame of the positions, its ['time'] column
    replaced by clock times.  A frame built from no row has no column, and
    asking for ['time'] raises [KeyError]. *)
Definition position_table {Float : Type}
    (positions : list (Position.t datetime Float))
  : result builtin_exn (list (string * Float * Float)) :=
  match positions with
  | [] => raise KeyError
  | _ :: _ =>
      ret (map (fun p => (strftime_HMS (Position.time p), Position.lat p,
                          Position.lon p)) positions)
  end.

Section Track.

Context (h : Host).

Local Abbreviation rt := (runtime_of h).

(** [calculate_satellite_positions] called with what [satellite] is bound
    to.  On [None] the observer is set up as always, and building the
    arguments of [ephem.readtle] raises [TypeError] at [sat['name']]. *)
Definition calculate_for (satellite : option Satellite) (clock : datetime)
    (observer_lat observer_lon : Float rt) (times : list datetime)
  : result (script_exn (Exn rt)) (list (position_t rt)) :=
  match satellite with
  | Some sat =>
      lift_library
        (calculate_satellite_positions rt clock sat observer_lat observer_lon
           times)
  | None =>
      _ <- lift_library (to_angle rt (str rt observer_lat)) ;;
      _ <- lift_library (to_angle rt (str rt observer_lon)) ;;
      raise (Builtin TypeError)
  end.

(** Lines 154-181, once the button is pressed.  [current_time] is what
    [datetime.utcnow()] returns at line 158, [clock] what the clock reads
    when the observer is created. *)
Definition track_button (satellite : binding)
    (current_time clock : datetime)
    (observer_lat observer_lon : Float rt) (num_samples time_interval : Z)
  : result (script_exn (Exn rt)) (outcome (Float rt)) :=
  match satellite with
  | Unbound => ret PleaseSelectFirst
  | Bound satellite =>
      times <- lift_builtin
                 (sample_times current_time num_samples time_interval) ;;
      positions <- calculate_for satellite clock observer_lat observer_lon
                     times ;;
      table <- lift_builtin (position_table positions) ;;
      match satellite with
      | Some sat =>
          ret (Shown
                 (mkPage (name sat) (norad_id sat)
                    (tracking_duration num_samples time_interval)
                    time_interval table
                    (Plot.create_map positions observer_lat observer_lon)))
      | None => raise (Builtin TypeError)
      end
  end.

End Track.

End Script.

(** *** Inputs to run the script on *)

Module Samples.
Import Toy Datetime.

Local Open Scope Z_scope.

(** [toy_compute], for a clock on which 2024-01-01 12:00:00 is the epoch of
    the ISS elements. *)
Definition shifted_compute (b : body) (o : Observer.t datetime Z)
  : result string body :=
  toy_compute b
    (Observer.make
       (Observer.date o / us_per_second
        - ((738885 * 86400 + 12 * 3600) - iss_epoch))
       (Observer.lat o) (Observer.lon o)).

Definition host : Host := {|
  host_exn := string;
  host_float := Z;
  host_angle := Z;
  host_body := body;
  host_str := toy_str;
  host_angle0 := 0;
  host_to_angle := toy_to_angle;
  host_readtle := toy_readtle;
  host_compute := shifted_compute;
  host_sublat := toy_sublat;
  host_sublong := toy_sublong;
  host_degrees := toy_degrees
|}.

Definition noaa_line1 : string :=
  "1 28654U 05018A   08264.50000000  .00000000  00000-0  00000-0 0  0007".

(** Two records with the same name, and one whose line 1 is too short to
    hold an identifier. *)
Definition catalogue : list Satellite :=
  [mkSatellite "DEBRIS" "25544" iss_line1 iss_line2;
   mkSatellite "DEBRIS" "28654" noaa_line1 iss_line2;
   mkSatellite "STUB" "" "1" "2"].

(** A text with carriage returns before the line feeds. *)
Definition crlf_lines : list string :=
  ["ISS (ZARYA)" ++ String (ascii_of_nat 13) ""; 
   iss_line1 ++ String (ascii_of_nat 13) "";
   iss_line2]%string.

(** 2024-01-01 12:00:00, counted from 0001-01-01 on the calendar of
    [datetime]: day 738886 of the era. *)
Definition noon : datetime := (738885 * 86400 + 12 * 3600) * us_per_second.

(** 9999-12-31 23:58:20, a hundred seconds before the end of the
    calendar. *)
Definition last_minutes : datetime :=
  (max_ordinal * 86400 - 100) * us_per_second.

(** What the page shows for the ISS record, three samples a minute apart
    from [noon], and an observer at 28 N 91 E. *)
Definition shown : Script.page Z :=
  Script.mkPage "ISS (ZARYA)" "25544" 120 60
    [("12:00:00"%string, -51566196, -180000000);
     ("12:01:00"%string, -47784675, -165001113);
     ("12:02:00"%string, -44003154, -150002225)]
    (Plot.create_map
       [Position.make noon (-51566196) (-180000000);
        Position.make (noon + 60 * us_per_second) (-47784675) (-165001113);
        Position.make (noon + 120 * us_per_second) (-44003154) (-150002225)]
       28 91).

(** A block of six lines whose first line is a space, and the five lines
    that follow it. *)
Definition five_lines : list string := ["N1"; "L1"; "L2"; "N2"; "M1"].

Definition six_lines : list string := " "%string :: five_lines.

End Samples.

(** * Properties of the catalogue reader *)

Module CatalogFacts.
Import PyStr Catalog.

Lemma substring_length (s : string) :
  forall n m, String.length (substring n m s) = Nat.min m (String.length s - n).
Proof.
  induction s as [|c s IH]; intros n m.
  - destruct n, m; reflexivity.
  - destruct n as [|n].
    + destruct m as [|m]; simpl; [reflexivity|].
      rewrite IH, Nat.sub_0_r. reflexivity.
    + simpl. apply IH.
Qed.

Lemma slice_length (a b : nat) (s : string) :
  String.length (slice a b s) = Nat.min (b - a) (String.length s - a).
Proof. unfold slice. apply substring_length. Qed.

(** The loop, started at index [3 * k] with the records of the first [k]
    groups in hand, adds the records of the remaining complete groups. *)
Lemma fold_visit_group (tle_data : list string) :
  forall fuel k acc,
    List.length tle_data <= fuel + 3 * k ->
    fold_left (visit_group tle_data)
      (range_from fuel (3 * k) (List.length tle_data) 3) acc
    = acc ++ map (record_at tle_data)
               (seq k (List.length tle_data / 3 - k)).
Proof.
  set (n := List.length tle_data).
  assert (Hdiv : n = 3 * (n / 3) + n mod 3) by apply Nat.div_mod_eq.
  assert (Hmod : n mod 3 < 3) by (apply Nat.mod_upper_bound; lia).
  induction fuel as [|fuel IH]; intros k acc Hfuel; cbn [range_from].
  - replace (n / 3 - k) with 0 by lia. cbn. now rewrite app_nil_r.
  - destruct (3 * k <? n) eqn:Hin.
    + apply Nat.ltb_lt in Hin. cbn [fold_left].
      replace (3 * k + 3) with (3 * S k) by lia.
      rewrite IH by lia.
      unfold visit_group at 1. fold n.
      destruct (3 * k + 2 <? n) eqn:Hfull.
      * apply Nat.ltb_lt in Hfull.
        replace (n / 3 - k) with (S (n / 3 - S k)) by lia.
        cbn [seq map]. rewrite <- app_assoc. reflexivity.
      * apply Nat.ltb_ge in Hfull.
        replace (n / 3 - k) with 0 by lia.
        replace (n / 3 - S k) with 0 by lia. reflexivity.
    + apply Nat.ltb_ge in Hin.
      replace (n / 3 - k) with 0 by lia. cbn. now rewrite app_nil_r.
Qed.

Lemma group_records_spec (tle_data : list string) :
  group_records tle_data
  = map (record_at tle_data) (seq 0 (List.length tle_data / 3)).
Proof.
  unfold group_records, range.
  pose proof (fold_visit_group tle_data (List.length tle_data) 0 []) as H.
  change (3 * 0) with 0 in H. rewrite H by lia.
  now rewrite Nat.sub_0_r.
Qed.

Lemma nth_error_nth_default (l : list string) (i : nat) (s : string) :
  nth_error l i = Some s -> nth i l EmptyString = s.
Proof. intros H. now apply nth_error_nth. Qed.

Lemma record_in_group_records (tle_data : list string) (r : Satellite) :
  In r (group_records tle_data) ->
  exists k, k < List.length tle_data / 3 /\ r = record_at tle_data k.
Proof.
  rewrite group_records_spec. intros H.
  apply in_map_iff in H. destruct H as [k [Hk Hin]].
  apply in_seq in Hin. exists k. split; [lia | now symmetry].
Qed.

End CatalogFacts.

Module CatalogSpec.
Import PyStr Catalog CatalogFacts.

(** In terms of [tle_data], the lines of the response after
    [strip().split('\n')]: [get_tle_data] returns one record per complete
    group of three lines, in order: the record of group [k] is built from
    lines [3k], [3k+1] and [3k+2].  There are exactly
    [len(tle_data) / 3] records (floor division), so one or two trailing
    lines yield no record; the function has no error outcome. *)
Theorem get_tle_data_complete_groups (response_text : string) :
  let tle_data := tle_lines response_text in
  get_tle_data response_text
  = map (fun k =>
           mkSatellite (strip (nth (3 * k) tle_data EmptyString))
             (slice 2 7 (nth (3 * k + 1) tle_data EmptyString))
             (nth (3 * k + 1) tle_data EmptyString)
             (nth (3 * k + 2) tle_data EmptyString))
        (seq 0 (List.length tle_data / 3))
  /\ List.length (get_tle_data response_text) = List.length tle_data / 3.
Proof.
  intros tle_data. unfold get_tle_data. fold tle_data.
  rewrite group_records_spec. split.
  - reflexivity.
  - now rewrite length_map, length_seq.
Qed.

(** C6, as amended: for every record returned by [get_tle_data], the
    catalogue identifier is the slice [line1[2:7]], that is the characters 3
    to 7 (1-indexed) of line 1 that exist; it has 5 characters when line 1
    has at least 7, and [len(line1) - 2] (none below 3) otherwise. *)
Theorem norad_id_is_slice (response_text : string) (r : Satellite) :
  In r (get_tle_data response_text) ->
  norad_id r = slice 2 7 (line1 r)
  /\ String.length (norad_id r) = Nat.min 5 (String.length (line1 r) - 2).
Proof.
  intros Hin. apply record_in_group_records in Hin.
  destruct Hin as [k [_ ->]]. cbn [record_at norad_id line1].
  split; [reflexivity | apply slice_length].
Qed.

Lemma norad_id_is_slice_witness :
  In Toy.iss (get_tle_data Toy.iss_text)
  /\ norad_id Toy.iss = slice 2 7 (line1 Toy.iss)
  /\ String.length (norad_id Toy.iss) = 5.
Proof.
  assert (Hin : In Toy.iss (get_tle_data Toy.iss_text))
    by (vm_compute; left; reflexivity).
  split; [exact Hin |].
  exact (norad_id_is_slice Toy.iss_text Toy.iss Hin).
Defined.

(** C6, as stated, fails on [Toy.short_text]: the one record returned has the
    identifier "2", a single character. *)
Lemma norad_id_not_always_five_characters :
  get_tle_data Toy.short_text = [mkSatellite "X" "2" "1 2" "z"]
  /\ ~ (forall r, In r (get_tle_data Toy.short_text) ->
          norad_id r = slice 2 7 (line1 r)
          /\ String.length (norad_id r) = 5).
Proof.
  split; [reflexivity |].
  intros H. specialize (H (mkSatellite "X" "2" "1 2" "z")).
  destruct H as [_ H]; [left; reflexivity | discriminate H].
Qed.

(** C5, as amended: [get_tle_data] does not look at the checksum digit.  A
    group of three lines whose line 1 carries a wrong checksum digit is
    returned as a record like any other, with line 1 kept verbatim and the
    identifier sliced out of it. *)
Theorem altered_checksum_is_accepted (response_text : string) (k : nat)
    (name_line l1 l2 : string) :
  nth_error (tle_lines response_text) (3 * k) = Some name_line ->
  nth_error (tle_lines response_text) (3 * k + 1) = Some l1 ->
  nth_error (tle_lines response_text) (3 * k + 2) = Some l2 ->
  Checksum.checksum_ok l1 = false ->
  nth_error (get_tle_data response_text) k
  = Some (mkSatellite (strip name_line) (slice 2 7 l1) l1 l2).
Proof.
  intros H0 H1 H2 _. unfold get_tle_data.
  set (tle_data := tle_lines response_text) in *.
  assert (Hlen : 3 * k + 2 < List.length tle_data)
    by (apply nth_error_Some; congruence).
  assert (Hdiv : List.length tle_data
                 = 3 * (List.length tle_data / 3) + List.length tle_data mod 3)
    by apply Nat.div_mod_eq.
  assert (Hmod : List.length tle_data mod 3 < 3)
    by (apply Nat.mod_upper_bound; lia).
  rewrite group_records_spec.
  rewrite nth_error_map, nth_error_seq.
  destruct (k <? List.length tle_data / 3) eqn:Hk;
    [| apply Nat.ltb_ge in Hk; lia].
  cbn [option_map Nat.add]. unfold record_at.
  now rewrite (nth_error_nth_default _ _ _ H0),
              (nth_error_nth_default _ _ _ H1),
              (nth_error_nth_default _ _ _ H2).
Qed.

Lemma altered_checksum_is_accepted_witness :
  Checksum.checksum_ok Toy.iss_line1_altered = false
  /\ nth_error (get_tle_data Toy.iss_text_altered) 0
     = Some (mkSatellite Toy.iss_name "25544" Toy.iss_line1_altered
               Toy.iss_line2).
Proof.
  split; [reflexivity |].
  exact (altered_checksum_is_accepted Toy.iss_text_altered 0
           Toy.iss_name Toy.iss_line1_altered Toy.iss_line2
           eq_refl eq_refl eq_refl eq_refl).
Defined.

(** C5, as stated, fails on the ISS elements with the last digit of line 1
    changed from 7 to 8: the checksum no longer matches, and the record is
    returned all the same, where the unaltered line gives the same record
    but for line 1. *)
Lemma altered_checksum_yields_a_record :
  Checksum.checksum_ok Toy.iss_line1 = true
  /\ Checksum.checksum_ok Toy.iss_line1_altered = false
  /\ get_tle_data Toy.iss_text_altered
     = [mkSatellite "ISS (ZARYA)" "25544" Toy.iss_line1_altered Toy.iss_line2].
Proof. repeat split. Qed.

End CatalogSpec.

(** * Properties of the position pipeline *)

Section PipelineFacts.

Context (rt : Runtime).

Local Abbreviation M := (result (Exn rt)).
Local Abbreviation state := (state_t rt).

Lemma bind_inr {A B : Type} (m : M A) (k : A -> M B) (b : B) :
  bind m k = inr b -> exists a, m = inr a /\ k a = inr b.
Proof. destruct m as [e|a]; simpl; [discriminate | eauto]. Qed.

Lemma bind_inl {A B : Type} (m : M A) (k : A -> M B) (e : Exn rt) :
  bind m k = inl e -> m = inl e \/ exists a, m = inr a /\ k a = inl e.
Proof. destruct m as [e'|a]; simpl; [left; congruence | eauto]. Qed.

(** What one successful iteration does to the loop variables. *)
Lemma track_instant_inr (st st' : state) (t : Instant rt) :
  track_instant rt st t = inr st' ->
  exists b la lo,
    compute rt (satellite st)
      (Observer.make t (Observer.lat (observer st))
         (Observer.lon (observer st))) = inr b
    /\ sublat rt b = inr la
    /\ sublong rt b = inr lo
    /\ st' = mkLoopState
               (Observer.make t (Observer.lat (observer st))
                  (Observer.lon (observer st)))
               b
               (positions st
                  ++ [Position.make t (degrees rt la) (degrees rt lo)]).
Proof.
  unfold track_instant. intros H.
  apply bind_inr in H. destruct H as [b [Hb H]].
  apply bind_inr in H. destruct H as [la [Hla H]].
  apply bind_inr in H. destruct H as [lo [Hlo H]].
  exists b, la, lo. unfold ret in H. now inversion H.
Qed.

Lemma for_each_time_app (st : state) (xs ys : list (Instant rt)) :
  for_each_time rt st (xs ++ ys)
  = (st' <- for_each_time rt st xs ;; for_each_time rt st' ys).
Proof.
  revert st. induction xs as [|x xs IH]; intros st; simpl.
  - reflexivity.
  - destruct (track_instant rt st x) as [e|st1]; simpl; [reflexivity | apply IH].
Qed.

(** The loop only appends: one position per instant, carrying it. *)
Lemma for_each_time_appends (times : list (Instant rt)) :
  forall st st',
    for_each_time rt st times = inr st' ->
    exists more,
      positions st' = positions st ++ more
      /\ map Position.time more = times.
Proof.
  induction times as [|t times IH]; intros st st' H; simpl in H.
  - inversion H; subst. exists []. now rewrite app_nil_r.
  - apply bind_inr in H. destruct H as [st1 [H1 H]].
    apply IH in H. destruct H as [more [Hpos Htimes]].
    apply track_instant_inr in H1.
    destruct H1 as [b [la [lo [_ [_ [_ ->]]]]]]. simpl in Hpos.
    exists (Position.make t (degrees rt la) (degrees rt lo) :: more).
    rewrite Hpos, <- app_assoc. simpl. now rewrite Htimes.
Qed.

Lemma setup_positions (clock : Instant rt) (sat : Satellite)
    (olat olon : Float rt) (st0 : state) :
  setup rt clock sat olat olon = inr st0 -> positions st0 = [].
Proof.
  unfold setup. intros H.
  apply bind_inr in H. destruct H as [a [_ H]].
  apply bind_inr in H. destruct H as [b [_ H]].
  apply bind_inr in H. destruct H as [s [_ H]].
  inversion H. reflexivity.
Qed.

Lemma calculate_inr (clock : Instant rt) (sat : Satellite)
    (olat olon : Float rt) (times : list (Instant rt))
    (ps : list (position_t rt)) :
  calculate_satellite_positions rt clock sat olat olon times = inr ps ->
  exists st0 st,
    setup rt clock sat olat olon = inr st0
    /\ for_each_time rt st0 times = inr st
    /\ positions st0 = []
    /\ positions st = ps.
Proof.
  unfold calculate_satellite_positions. intros H.
  apply bind_inr in H. destruct H as [st0 [H0 H]].
  apply bind_inr in H. destruct H as [st [Hst H]].
  inversion H. exists st0, st.
  repeat split; try assumption. eapply setup_positions; eassumption.
Qed.

(** An exception out of the loop is the exception of one iteration, and
    every iteration before it returned. *)
Lemma for_each_time_inl (times : list (Instant rt)) :
  forall (st : state) (e : Exn rt),
    for_each_time rt st times = inl e ->
    exists before t after st',
      times = before ++ t :: after
      /\ for_each_time rt st before = inr st'
      /\ track_instant rt st' t = inl e.
Proof.
  induction times as [|t times IH]; intros st e H; simpl in H.
  - discriminate H.
  - apply bind_inl in H. destruct H as [H | [st1 [H1 H]]].
    + exists [], t, times, st. repeat split; assumption.
    + apply IH in H. destruct H as [before [t' [after [st' [-> [Hb Ht]]]]]].
      exists (t :: before), t', after, st'. simpl. rewrite H1. simpl.
      repeat split; assumption.
Qed.

(** When no library call raises, the pipeline returns. *)
Lemma for_each_time_returns (times : list (Instant rt)) :
  (forall b o, exists b', compute rt b o = inr b') ->
  (forall b, exists x, sublat rt b = inr x) ->
  (forall b, exists x, sublong rt b = inr x) ->
  forall st, exists st', for_each_time rt st times = inr st'.
Proof.
  intros Hc Hla Hlo.
  induction times as [|t times IH]; intros st; simpl.
  - eexists; reflexivity.
  - unfold track_instant.
    destruct (Hc (satellite st)
                (Observer.make t (Observer.lat (observer st))
                   (Observer.lon (observer st)))) as [b ->].
    destruct (Hla b) as [la Ela]. destruct (Hlo b) as [lo Elo].
    simpl. rewrite Ela. simpl. rewrite Elo. simpl. apply IH.
Qed.

End PipelineFacts.

Section PipelineSpec.

Context (rt : Runtime).

Local Abbreviation state := (state_t rt).

(** C1: whenever [calculate_satellite_positions] returns, it returns exactly
    one position per instant (so N positions for N instants, N from 1 to 50
    included), and the position at index [i] is the one built for the
    instant at index [i]: the sub-point, in degrees, of the satellite
    computed for an observer dated at that instant, in the state the first
    [i] instants left. *)
Theorem track_one_point_per_instant (clock : Instant rt) (sat : Satellite)
    (olat olon : Float rt) (times : list (Instant rt))
    (ps : list (position_t rt)) :
  calculate_satellite_positions rt clock sat olat olon times = inr ps ->
  List.length ps = List.length times
  /\ forall i t,
       nth_error times i = Some t ->
       exists (st : state) b la lo,
         (st0 <- setup rt clock sat olat olon ;;
          for_each_time rt st0 (firstn i times)) = inr st
         /\ compute rt (satellite st)
              (Observer.make t (Observer.lat (observer st))
                 (Observer.lon (observer st))) = inr b
         /\ sublat rt b = inr la
         /\ sublong rt b = inr lo
         /\ nth_error ps i
            = Some (Position.make t (degrees rt la) (degrees rt lo)).
Proof.
  intros H. apply calculate_inr in H.
  destruct H as [st0 [stN [H0 [HN [Hnil Hps]]]]]. split.
  - apply for_each_time_appends in HN. destruct HN as [more [Hpos Hmap]].
    rewrite Hnil in Hpos. simpl in Hpos.
    rewrite <- Hps, Hpos, <- Hmap. now rewrite length_map.
  - intros i t Hi.
    apply nth_error_split in Hi. destruct Hi as [l1 [l2 [Htimes Hlen]]].
    assert (Hfirst : firstn i times = l1).
    { rewrite Htimes, <- Hlen, firstn_app, Nat.sub_diag, firstn_all.
      simpl. apply app_nil_r. }
    rewrite Htimes, for_each_time_app in HN.
    apply bind_inr in HN. destruct HN as [st [Hst HN]].
    simpl in HN. apply bind_inr in HN. destruct HN as [st' [Hstep Hrest]].
    pose proof (track_instant_inr rt _ _ _ Hstep) as Hshape.
    destruct Hshape as [b [la [lo [Hb [Hla [Hlo Hst']]]]]].
    exists st, b, la, lo. rewrite Hfirst, H0. simpl.
    repeat split; try assumption.
    apply for_each_time_appends in Hst. destruct Hst as [m1 [Hp1 Hm1]].
    apply for_each_time_appends in Hrest. destruct Hrest as [m2 [Hp2 Hm2]].
    rewrite Hnil in Hp1. simpl in Hp1.
    rewrite <- Hps, Hp2, Hst'. simpl. rewrite Hp1.
    assert (Hi : List.length m1 = i)
      by (rewrite <- Hlen, <- Hm1; now rewrite length_map).
    rewrite <- app_assoc, nth_error_app2 by lia.
    rewrite Hi, Nat.sub_diag. reflexivity.
Qed.

(** C9: for every list of instants, of any length, whenever
    [calculate_satellite_positions] returns, the ['time'] fields of the
    positions are the instants given, in order and unchanged. *)
Theorem positions_echo_instants (clock : Instant rt) (sat : Satellite)
    (olat olon : Float rt) (times : list (Instant rt))
    (ps : list (position_t rt)) :
  calculate_satellite_positions rt clock sat olat olon times = inr ps ->
  map Position.time ps = times.
Proof.
  intros H. apply calculate_inr in H.
  destruct H as [st0 [stN [_ [HN [Hnil Hps]]]]].
  apply for_each_time_appends in HN. destruct HN as [more [Hpos Hmap]].
  rewrite Hnil in Hpos. simpl in Hpos. now rewrite <- Hps, Hpos.
Qed.


End PipelineSpec.

Section Flows.

Context (rt : Runtime).

Local Abbreviation state := (state_t rt).

(** The positions a loop returns, or the exception it raises. *)
Local Abbreviation track_of m := (st <- m ;; ret (positions st)).

(** An iteration overwrites the date of the observer before using it. *)
Lemma track_instant_ignores_date (st1 st2 : state) (t : Instant rt) :
  Observer.lat (observer st1) = Observer.lat (observer st2) ->
  Observer.lon (observer st1) = Observer.lon (observer st2) ->
  satellite st1 = satellite st2 ->
  positions st1 = positions st2 ->
  track_instant rt st1 t = track_instant rt st2 t.
Proof.
  intros Hlat Hlon Hsat Hpos. unfold track_instant.
  now rewrite Hlat, Hlon, Hsat, Hpos.
Qed.

Lemma for_each_time_ignores_date (times : list (Instant rt))
    (st1 st2 : state) :
  Observer.lat (observer st1) = Observer.lat (observer st2) ->
  Observer.lon (observer st1) = Observer.lon (observer st2) ->
  satellite st1 = satellite st2 ->
  positions st1 = positions st2 ->
  track_of (for_each_time rt st1 times) = track_of (for_each_time rt st2 times).
Proof.
  intros Hlat Hlon Hsat Hpos. destruct times as [|t times]; simpl.
  - now rewrite Hpos.
  - now rewrite (track_instant_ignores_date st1 st2 t Hlat Hlon Hsat Hpos).
Qed.

Lemma calculate_as_track (clock : Instant rt) (sat : Satellite)
    (olat olon : Float rt) (times : list (Instant rt)) :
  calculate_satellite_positions rt clock sat olat olon times
  = (st0 <- setup rt clock sat olat olon ;;
     track_of (for_each_time rt st0 times)).
Proof. reflexivity. Qed.

(** The loop from two states whose satellites are related, with the same
    positions so far, whatever the two observers' locations. *)
Lemma for_each_time_related (R : Body rt -> Body rt -> Prop) :
  (forall b1 b2, R b1 b2 ->
     sublat rt b1 = sublat rt b2 /\ sublong rt b1 = sublong rt b2) ->
  (forall b1 b2 o1 o2, R b1 b2 -> Observer.date o1 = Observer.date o2 ->
     same_outcome R (compute rt b1 o1) (compute rt b2 o2)) ->
  forall (times : list (Instant rt)) (st1 st2 : state),
    R (satellite st1) (satellite st2) ->
    positions st1 = positions st2 ->
    track_of (for_each_time rt st1 times)
    = track_of (for_each_time rt st2 times).
Proof.
  intros Hsub Hcompute.
  induction times as [|t times IH]; intros st1 st2 HR Hpos; simpl.
  - now rewrite Hpos.
  - unfold track_instant.
    pose proof (Hcompute (satellite st1) (satellite st2)
                  (Observer.make t (Observer.lat (observer st1))
                     (Observer.lon (observer st1)))
                  (Observer.make t (Observer.lat (observer st2))
                     (Observer.lon (observer st2)))
                  HR eq_refl) as Hstep.
    unfold same_outcome in Hstep.
    destruct (compute rt (satellite st1) _) as [e1|b1],
             (compute rt (satellite st2) _) as [e2|b2];
      try contradiction; simpl.
    + now rewrite Hstep.
    + destruct (Hsub b1 b2 Hstep) as [Hla Hlo]. rewrite Hla, Hlo, Hpos.
      destruct (sublat rt b2) as [e|la]; simpl; [reflexivity|].
      destruct (sublong rt b2) as [e|lo]; simpl; [reflexivity|].
      apply IH; [exact Hstep | reflexivity].
Qed.

(** C4: the outcome of [calculate_satellite_positions] is a function of its
    arguments alone.  The one thing read besides them is the clock, in
    [ephem.Observer()], and the date it gives is overwritten before every
    use: two calls with the same element set, observer and instants agree
    whatever the clock reads at each call. *)
Theorem calculate_deterministic (clock1 clock2 : Instant rt)
    (sat : Satellite) (olat olon : Float rt) (times : list (Instant rt)) :
  calculate_satellite_positions rt clock1 sat olat olon times
  = calculate_satellite_positions rt clock2 sat olat olon times.
Proof.
  rewrite !calculate_as_track. unfold setup.
  destruct (to_angle rt (str rt olat)) as [e|a]; simpl; [reflexivity|].
  destruct (to_angle rt (str rt olon)) as [e|b]; simpl; [reflexivity|].
  destruct (readtle rt (name sat) (line1 sat) (line2 sat)) as [e|s]; simpl;
    [reflexivity|].
  now apply for_each_time_ignores_date.
Qed.

(** Relative to the library: two runs on the same element set and
    instants, for two observer
    locations that [ephem] accepts, agree on every position (and on the
    exception, if one is raised), provided the sub-point [ephem] computes
    does not depend on where the observer is: [R] relates the satellite
    states that two observers of the same date lead to, and related states
    have the same sub-point. *)
Theorem observer_location_noninterference
    (R : Body rt -> Body rt -> Prop)
    (clock : Instant rt) (sat : Satellite)
    (lat1 lon1 lat2 lon2 : Float rt) (times : list (Instant rt)) :
  (forall b, R b b) ->
  (forall b1 b2, R b1 b2 ->
     sublat rt b1 = sublat rt b2 /\ sublong rt b1 = sublong rt b2) ->
  (forall b1 b2 o1 o2, R b1 b2 -> Observer.date o1 = Observer.date o2 ->
     same_outcome R (compute rt b1 o1) (compute rt b2 o2)) ->
  (exists a, to_angle rt (str rt lat1) = inr a) ->
  (exists a, to_angle rt (str rt lon1) = inr a) ->
  (exists a, to_angle rt (str rt lat2) = inr a) ->
  (exists a, to_angle rt (str rt lon2) = inr a) ->
  calculate_satellite_positions rt clock sat lat1 lon1 times
  = calculate_satellite_positions rt clock sat lat2 lon2 times.
Proof.
  intros Hrefl Hsub Hcompute [a1 Ha1] [b1 Hb1] [a2 Ha2] [b2 Hb2].
  rewrite !calculate_as_track. unfold setup.
  rewrite Ha1, Hb1, Ha2, Hb2. simpl.
  destruct (readtle rt (name sat) (line1 sat) (line2 sat)) as [e|s]; simpl;
    [reflexivity|].
  apply (for_each_time_related R Hsub Hcompute); simpl;
    [apply Hrefl | reflexivity].
Qed.

(** C8, as amended: for one instant [t], whatever its distance from the
    epoch of the elements, [calculate_satellite_positions] either raises
    the exception of the first library call that raised, or returns the
    single plain position [{time, lat, lon}] of the sub-point; it attaches
    no warning and raises nothing of its own. *)
Theorem single_instant_outcome (clock : Instant rt) (sat : Satellite)
    (olat olon : Float rt) (t : Instant rt) :
  match calculate_satellite_positions rt clock sat olat olon [t] with
  | inr ps =>
      exists (st0 : state) b la lo,
        setup rt clock sat olat olon = inr st0
        /\ compute rt (satellite st0)
             (Observer.make t (Observer.lat (observer st0))
                (Observer.lon (observer st0))) = inr b
        /\ sublat rt b = inr la
        /\ sublong rt b = inr lo
        /\ ps = [Position.make t (degrees rt la) (degrees rt lo)]
  | inl e =>
      setup rt clock sat olat olon = inl e
      \/ exists st0 : state,
           setup rt clock sat olat olon = inr st0
           /\ let o := Observer.make t (Observer.lat (observer st0))
                         (Observer.lon (observer st0)) in
              (compute rt (satellite st0) o = inl e
               \/ exists b,
                    compute rt (satellite st0) o = inr b
                    /\ (sublat rt b = inl e
                        \/ exists la,
                             sublat rt b = inr la /\ sublong rt b = inl e))
  end.
Proof.
  unfold calculate_satellite_positions.
  destruct (setup rt clock sat olat olon) as [e|st0] eqn:H0; simpl.
  - now left.
  - pose proof (setup_positions rt _ _ _ _ _ H0) as Hnil.
    unfold track_instant.
    destruct (compute rt (satellite st0) _) as [e|b] eqn:Hb; simpl.
    + right. exists st0. split; [reflexivity | now left].
    + destruct (sublat rt b) as [e|la] eqn:Hla; simpl.
      * right. exists st0. split; [reflexivity|]. right. exists b. auto.
      * destruct (sublong rt b) as [e|lo] eqn:Hlo; simpl.
        -- right. exists st0. split; [reflexivity|]. right. exists b.
           split; [assumption|]. right. exists la. auto.
        -- exists st0, b, la, lo. rewrite Hnil. auto.
Qed.

End Flows.

(** * The pipeline on the small runtime *)

Module ToyRuns.
Import Toy.

Local Open Scope Z_scope.

Lemma same_orbit_refl (b : body) : same_orbit b b.
Proof. split; reflexivity. Qed.

Lemma same_orbit_sub_point (b1 b2 : body) :
  same_orbit b1 b2 ->
  toy_sublat b1 = toy_sublat b2 /\ toy_sublong b1 = toy_sublong b2.
Proof.
  intros [_ He]. unfold toy_sublat, toy_sublong. now rewrite He.
Qed.

Lemma same_orbit_compute (b1 b2 : body) (o1 o2 : Observer.t Z Z) :
  same_orbit b1 b2 ->
  Observer.date o1 = Observer.date o2 ->
  same_outcome same_orbit (toy_compute b1 o1) (toy_compute b2 o2).
Proof.
  intros [Hepoch _] Hdate. unfold toy_compute. rewrite Hepoch, Hdate.
  destruct (365 * day <? Z.abs (Observer.date o2 - epoch b2)); simpl.
  - reflexivity.
  - split; reflexivity.
Qed.

Lemma track_one_point_per_instant_witness :
  calculate_satellite_positions runtime 0 iss 28 91 track_times = inr track
  /\ List.length track = List.length track_times.
Proof.
  assert (H : calculate_satellite_positions runtime 0 iss 28 91 track_times
              = inr track) by (vm_compute; reflexivity).
  split; [exact H |].
  exact (proj1 (track_one_point_per_instant runtime 0 iss 28 91
                  track_times track H)).
Defined.

Lemma positions_echo_instants_witness :
  calculate_satellite_positions runtime 7 iss 28 91 track_times = inr track
  /\ map Position.time track = track_times.
Proof.
  assert (H : calculate_satellite_positions runtime 7 iss 28 91 track_times
              = inr track) by (vm_compute; reflexivity).
  split; [exact H |].
  exact (positions_echo_instants runtime 7 iss 28 91 track_times track H).
Defined.


(** Observers at 28 N 91 E and at 33 S 151 E get the same track. *)
Lemma observer_location_noninterference_witness :
  calculate_satellite_positions runtime 0 iss 28 91 track_times
  = calculate_satellite_positions runtime 0 iss (-33) 151 track_times.
Proof.
  apply (observer_location_noninterference runtime same_orbit).
  - exact same_orbit_refl.
  - exact same_orbit_sub_point.
  - exact same_orbit_compute.
  - exists 28. vm_compute. reflexivity.
  - exists 91. vm_compute. reflexivity.
  - exists (-33). vm_compute. reflexivity.
  - exists 151. vm_compute. reflexivity.
Defined.

(** C8, as stated, fails thirty days after the epoch, far beyond a
    threshold of seven days: the call returns a position made of the
    instant, a latitude and a longitude, with nothing to qualify it, and
    raises no error. *)
Lemma stale_instant_yields_plain_position :
  stale (7 * day) iss_epoch (iss_epoch + 30 * day) = true
  /\ readtle runtime iss_name iss_line1 iss_line2
     = inr (mkBody iss_epoch 0 0)
  /\ calculate_satellite_positions runtime 0 iss 28 91
       [iss_epoch + 30 * day]
     = inr [Position.make (iss_epoch + 30 * day) 51475496 132043380].
Proof.
  split; [vm_compute; reflexivity |].
  split; vm_compute; reflexivity.
Qed.

End ToyRuns.

(** * More on the catalogue reader *)

Module StripFacts.
Import PyStr Lines.

Lemma lstrip_shape (s : string) :
  lstrip s = EmptyString \/ starts_clean (lstrip s) = true.
Proof.
  induction s as [|c s IH]; simpl.
  - now left.
  - destruct (is_space c) eqn:Hc; [exact IH |].
    right. simpl. now rewrite Hc.
Qed.

Lemma lstrip_clean (s : string) : starts_clean s = true -> lstrip s = s.
Proof.
  destruct s as [|c s]; simpl; [discriminate |].
  now destruct (is_space c).
Qed.

Lemma rstrip_cons (c : ascii) (s : string) :
  is_space c = false -> rstrip (String c s) = String c (rstrip s).
Proof.
  intros Hc. simpl. destruct (rstrip s); [now rewrite Hc | reflexivity].
Qed.

Lemma rstrip_shape (s : string) :
  rstrip s = EmptyString \/ ends_clean (rstrip s) = true.
Proof.
  induction s as [|c s IH]; simpl.
  - now left.
  - destruct (rstrip s) as [|c' r] eqn:Hr.
    + destruct (is_space c) eqn:Hc; [now left |].
      right. simpl. now rewrite Hc.
    + right. destruct IH as [IH | IH]; [discriminate | exact IH].
Qed.

Lemma rstrip_clean (s : string) : ends_clean s = true -> rstrip s = s.
Proof.
  induction s as [|c s IH]; [discriminate |].
  destruct s as [|c' s'].
  - simpl. intros Hc. now destruct (is_space c).
  - intros H. change (ends_clean (String c' s') = true) in H.
    specialize (IH H). cbn [rstrip] in *. now rewrite IH.
Qed.

Lemma strip_shape (s : string) :
  strip s = EmptyString
  \/ (starts_clean (strip s) = true /\ ends_clean (strip s) = true).
Proof.
  unfold strip.
  destruct (rstrip_shape (lstrip s)) as [He | He]; [now left |].
  right. split; [| exact He].
  destruct (lstrip_shape s) as [Hl | Hl].
  - rewrite Hl in He. discriminate.
  - destruct (lstrip s) as [|c u]; [discriminate |].
    simpl in Hl. apply negb_true_iff in Hl.
    rewrite (rstrip_cons c u Hl). simpl. now rewrite Hl.
Qed.

Lemma strip_clean (s : string) :
  starts_clean s = true -> ends_clean s = true -> strip s = s.
Proof.
  intros Hs He. unfold strip. rewrite (lstrip_clean s Hs).
  now apply rstrip_clean.
Qed.

Lemma strip_idempotent (s : string) : strip (strip s) = strip s.
Proof.
  destruct (strip_shape s) as [H | [Hs He]].
  - rewrite H. reflexivity.
  - now apply strip_clean.
Qed.

Lemma lstrip_blank (s : string) : blank s = true -> lstrip s = EmptyString.
Proof.
  induction s as [|c s IH]; simpl; [reflexivity |].
  intros H. apply andb_true_iff in H. destruct H as [Hc Hs].
  rewrite Hc. now apply IH.
Qed.

Lemma occurs_lstrip (c : ascii) (s : string) :
  occurs c s = false -> occurs c (lstrip s) = false.
Proof.
  induction s as [|c' s IH]; simpl; [reflexivity |].
  intros H. apply orb_false_iff in H. destruct H as [Hc Hs].
  destruct (is_space c'); [now apply IH |].
  simpl. now rewrite Hc, Hs.
Qed.

Lemma occurs_rstrip (c : ascii) (s : string) :
  occurs c s = false -> occurs c (rstrip s) = false.
Proof.
  induction s as [|c' s IH]; simpl; [reflexivity |].
  intros H. apply orb_false_iff in H. destruct H as [Hc Hs].
  specialize (IH Hs).
  destruct (rstrip s) as [|c'' r].
  - destruct (is_space c'); [reflexivity |]. simpl. now rewrite Hc.
  - change (occurs c (String c' (String c'' r)) = false).
    cbn [occurs] in *. now rewrite Hc, IH.
Qed.

Lemma occurs_strip (c : ascii) (s : string) :
  occurs c s = false -> occurs c (strip s) = false.
Proof. intros H. unfold strip. now apply occurs_rstrip, occurs_lstrip. Qed.

Lemma occurs_substring (c : ascii) (s : string) :
  occurs c s = false -> forall n m, occurs c (substring n m s) = false.
Proof.
  induction s as [|c' s IH]; intros H n m.
  - destruct n, m; reflexivity.
  - simpl in H. apply orb_false_iff in H. destruct H as [Hc Hs].
    destruct n as [|n].
    + destruct m as [|m]; simpl; [reflexivity |].
      now rewrite Hc, (IH Hs 0 m).
    + simpl. now apply IH.
Qed.

End StripFacts.

Module SplitFacts.
Import PyStr Lines.

Lemma split_newline_not_nil (s : string) : split_newline s <> [].
Proof.
  induction s as [|c s IH]; cbn [split_newline]; [discriminate |].
  destruct (Ascii.eqb c newline); [discriminate |].
  destruct (split_newline s); [contradiction | discriminate].
Qed.

(** No piece of a split holds the separator. *)
Lemma split_newline_pieces (s : string) :
  Forall (fun piece => occurs newline piece = false) (split_newline s).
Proof.
  induction s as [|c s IH]; cbn [split_newline].
  - constructor; [reflexivity | constructor].
  - destruct (Ascii.eqb c newline) eqn:Hc.
    + constructor; [reflexivity | exact IH].
    + rewrite Ascii.eqb_sym in Hc.
      destruct (split_newline s) as [|piece rest].
      * constructor; [| constructor]. cbn [occurs].
        now rewrite Hc.
      * inversion IH as [|? ? Hp Hr]; subst.
        constructor; [| exact Hr]. cbn [occurs].
        now rewrite Hc, Hp.
Qed.

Lemma split_newline_line (l : string) :
  occurs newline l = false -> split_newline l = [l].
Proof.
  induction l as [|c l IH]; cbn [split_newline occurs]; [reflexivity |].
  intros H. apply orb_false_iff in H. destruct H as [Hc Hl].
  rewrite Ascii.eqb_sym, Hc, (IH Hl). reflexivity.
Qed.

Lemma split_newline_app (l s : string) :
  occurs newline l = false ->
  split_newline (l ++ String newline s) = l :: split_newline s.
Proof.
  induction l as [|c l IH]; cbn [split_newline occurs String.append].
  - intros _. rewrite Ascii.eqb_refl. reflexivity.
  - intros H. apply orb_false_iff in H. destruct H as [Hc Hl].
    rewrite Ascii.eqb_sym, Hc, (IH Hl). reflexivity.
Qed.

(** Splitting undoes joining, for lines that hold no separator. *)
Lemma split_newline_join (lines : list string) :
  lines <> [] ->
  Forall (fun l => occurs newline l = false) lines ->
  split_newline (join lines) = lines.
Proof.
  induction lines as [|l rest IH]; intros Hne Hall; [contradiction |].
  inversion Hall as [|? ? Hl Hrest]; subst.
  destruct rest as [|l' rest'].
  - cbn [join]. now apply split_newline_line.
  - change (join (l :: l' :: rest'))
      with (l ++ String newline (join (l' :: rest')))%string.
    rewrite (split_newline_app _ _ Hl), IH; [reflexivity | discriminate |].
    exact Hrest.
Qed.

Lemma starts_clean_app (a b : string) :
  starts_clean a = true -> starts_clean (a ++ b) = true.
Proof. destruct a; simpl; [discriminate | trivial]. Qed.

Lemma ends_clean_app (a b : string) :
  ends_clean b = true -> ends_clean (a ++ b) = true.
Proof.
  intros Hb. induction a as [|c a IH]; simpl; [exact Hb |].
  destruct (a ++ b)%string eqn:Hab; [discriminate IH | exact IH].
Qed.

Lemma starts_clean_join (lines : list string) :
  starts_clean (hd EmptyString lines) = true ->
  starts_clean (join lines) = true.
Proof.
  destruct lines as [|l rest]; simpl; [discriminate |].
  destruct rest; [trivial | apply starts_clean_app].
Qed.

Lemma ends_clean_join (lines : list string) :
  ends_clean (last lines EmptyString) = true ->
  ends_clean (join lines) = true.
Proof.
  induction lines as [|l rest IH]; [discriminate |].
  destruct rest as [|l' rest'].
  - trivial.
  - intros H. change (ends_clean (last (l' :: rest') EmptyString) = true) in H.
    specialize (IH H).
    change (join (l :: l' :: rest'))
      with (l ++ String newline (join (l' :: rest')))%string.
    apply ends_clean_app.
    destruct (join (l' :: rest')) eqn:Hj; [discriminate IH |].
    exact IH.
Qed.

End SplitFacts.

Module CatalogMore.
Import PyStr Lines Catalog CatalogFacts StripFacts SplitFacts.

Lemma nth_no_newline (lines : list string) (i : nat) :
  Forall (fun l => occurs newline l = false) lines ->
  occurs newline (nth i lines EmptyString) = false.
Proof.
  intros Hall. destruct (Nat.lt_ge_cases i (List.length lines)) as [Hi | Hi].
  - now apply Forall_nth.
  - now rewrite nth_overflow.
Qed.

Lemma record_at_app_left (l1 l2 : list string) (k : nat) :
  3 * k + 2 < List.length l1 ->
  record_at (l1 ++ l2) k = record_at l1 k.
Proof.
  intros Hk. unfold record_at.
  now rewrite !app_nth1 by lia.
Qed.

Lemma record_at_app_right (l1 l2 : list string) (m j : nat) :
  List.length l1 = 3 * m ->
  record_at (l1 ++ l2) (m + j) = record_at l2 j.
Proof.
  intros Hlen. unfold record_at.
  rewrite !app_nth2 by lia. rewrite Hlen.
  replace (3 * (m + j) - 3 * m) with (3 * j) by lia.
  replace (3 * (m + j) + 1 - 3 * m) with (3 * j + 1) by lia.
  replace (3 * (m + j) + 2 - 3 * m) with (3 * j + 2) by lia.
  reflexivity.
Qed.

Lemma seq_from (m q : nat) : seq m q = map (Nat.add m) (seq 0 q).
Proof.
  induction m as [|m IH].
  - symmetry. apply map_id.
  - rewrite <- seq_shift, IH, map_map. reflexivity.
Qed.

(** X1: a response made of white space only (or empty) gives no record. *)
Theorem blank_response_gives_no_record (response_text : string) :
  blank response_text = true ->
  get_tle_data response_text = [].
Proof.
  intros H. unfold get_tle_data, tle_lines, strip.
  now rewrite (lstrip_blank _ H).
Qed.

Lemma blank_response_gives_no_record_witness :
  get_tle_data (" " ++ Toy.nl ++ Toy.nl ++ "  ")%string = [].
Proof.
  apply blank_response_gives_no_record. vm_compute. reflexivity.
Defined.

(** X2: the name of every record is stripped: stripping it again changes
    nothing, and unless it is empty it neither starts nor ends with white
    space. *)
Theorem record_names_are_stripped (response_text : string) (r : Satellite) :
  In r (get_tle_data response_text) ->
  strip (name r) = name r
  /\ (name r = EmptyString
      \/ (starts_clean (name r) = true /\ ends_clean (name r) = true)).
Proof.
  intros Hin. apply record_in_group_records in Hin.
  destruct Hin as [k [_ ->]]. cbn [record_at name].
  split; [apply strip_idempotent | apply strip_shape].
Qed.

Lemma record_names_are_stripped_witness :
  strip (name Toy.iss) = name Toy.iss.
Proof.
  assert (Hin : In Toy.iss (get_tle_data Toy.iss_text))
    by (vm_compute; left; reflexivity).
  exact (proj1 (record_names_are_stripped Toy.iss_text Toy.iss Hin)).
Defined.

(** X3: no field of a record holds a line feed: the name, both element
    lines and the identifier each come from a single line of the text. *)
Theorem record_fields_are_single_lines (response_text : string)
    (r : Satellite) :
  In r (get_tle_data response_text) ->
  occurs newline (name r) = false
  /\ occurs newline (norad_id r) = false
  /\ occurs newline (line1 r) = false
  /\ occurs newline (line2 r) = false.
Proof.
  intros Hin. apply record_in_group_records in Hin.
  destruct Hin as [k [_ ->]]. cbn [record_at name norad_id line1 line2].
  pose proof (split_newline_pieces (strip response_text)) as Hall.
  fold (tle_lines response_text) in Hall.
  repeat split.
  - apply occurs_strip. now apply nth_no_newline.
  - apply occurs_substring. now apply nth_no_newline.
  - now apply nth_no_newline.
  - now apply nth_no_newline.
Qed.

Lemma record_fields_are_single_lines_witness :
  occurs newline (name Toy.iss) = false
  /\ occurs newline (norad_id Toy.iss) = false
  /\ occurs newline (line1 Toy.iss) = false
  /\ occurs newline (line2 Toy.iss) = false.
Proof.
  assert (Hin : In Toy.iss (get_tle_data Toy.iss_text))
    by (vm_compute; left; reflexivity).
  exact (record_fields_are_single_lines Toy.iss_text Toy.iss Hin).
Defined.

(** X4: reading back a text written line by line.  For lines that hold no
    line feed, the first starting and the last ending with a character
    that is not white space, the records of the joined text are those of
    the lines taken three by three: names stripped, element lines kept as
    they are, a carriage return at their end included. *)
Theorem get_tle_data_of_joined_lines (lines : list string) :
  Forall (fun l => occurs newline l = false) lines ->
  starts_clean (hd EmptyString lines) = true ->
  ends_clean (last lines EmptyString) = true ->
  get_tle_data (join lines)
  = map (fun k =>
           mkSatellite (strip (nth (3 * k) lines EmptyString))
             (slice 2 7 (nth (3 * k + 1) lines EmptyString))
             (nth (3 * k + 1) lines EmptyString)
             (nth (3 * k + 2) lines EmptyString))
        (seq 0 (List.length lines / 3)).
Proof.
  intros Hall Hs He. unfold get_tle_data, tle_lines.
  rewrite strip_clean
    by (now apply starts_clean_join || now apply ends_clean_join).
  rewrite split_newline_join; [apply group_records_spec | | exact Hall].
  intros ->. discriminate Hs.
Qed.

Lemma get_tle_data_of_joined_lines_witness :
  get_tle_data (join Samples.crlf_lines)
  = [mkSatellite "ISS (ZARYA)" "25544"
       (Toy.iss_line1 ++ String (ascii_of_nat 13) "") Toy.iss_line2].
Proof.
  apply (get_tle_data_of_joined_lines Samples.crlf_lines).
  - repeat constructor.
  - reflexivity.
  - vm_compute. reflexivity.
Defined.

(** X5: the loop treats each group of three lines on its own: after lines
    that make complete groups, further lines only add their own records. *)
Theorem group_records_app (lines more : list string) (m : nat) :
  List.length lines = 3 * m ->
  group_records (lines ++ more) = group_records lines ++ group_records more.
Proof.
  intros Hlen. rewrite !group_records_spec, length_app, Hlen.
  replace ((3 * m + List.length more) / 3) with (m + List.length more / 3)
    by (rewrite (Nat.mul_comm 3 m), Nat.div_add_l by lia; reflexivity).
  replace (3 * m / 3) with m
    by (rewrite (Nat.mul_comm 3 m), Nat.div_mul by lia; reflexivity).
  rewrite seq_app, map_app. f_equal.
  - apply map_ext_in. intros k Hk. apply in_seq in Hk.
    apply record_at_app_left. lia.
  - cbn [Nat.add]. rewrite (seq_from m), map_map.
    apply map_ext. intros j. now apply record_at_app_right.
Qed.

Lemma group_records_app_witness :
  group_records
    ([Toy.iss_name; Toy.iss_line1; Toy.iss_line2] ++ ["X"; "1 2"; "z"; "w"])
  = [Toy.iss; mkSatellite "X" "2" "1 2" "z"].
Proof.
  rewrite (group_records_app [Toy.iss_name; Toy.iss_line1; Toy.iss_line2]
             ["X"; "1 2"; "z"; "w"] 1 eq_refl).
  vm_compute. reflexivity.
Defined.

End CatalogMore.

(** * The reader on raw text blocks *)

Module RawText.
Import PyStr Lines Catalog CatalogFacts StripFacts SplitFacts.

Lemma blank_app (a b : string) :
  blank a = true -> blank b = true -> blank (a ++ b) = true.
Proof.
  intros Ha Hb. induction a as [|c a IH]; simpl in *; [exact Hb |].
  apply andb_true_iff in Ha. destruct Ha as [Hc Ha].
  now rewrite Hc, IH.
Qed.

Lemma rstrip_blank (s : string) : blank s = true -> rstrip s = EmptyString.
Proof.
  induction s as [|c s IH]; simpl; [reflexivity |].
  intros H. apply andb_true_iff in H. destruct H as [Hc Hs].
  now rewrite (IH Hs), Hc.
Qed.

Lemma lstrip_blank_app (ws s : string) :
  blank ws = true -> lstrip (ws ++ s) = lstrip s.
Proof.
  intros H. induction ws as [|c ws IH]; simpl in *; [reflexivity |].
  apply andb_true_iff in H. destruct H as [Hc Hws].
  rewrite Hc. now apply IH.
Qed.

Lemma rstrip_app_blank (core ws : string) :
  ends_clean core = true -> blank ws = true -> rstrip (core ++ ws) = core.
Proof.
  intros Hcore Hws. induction core as [|c core IH]; [discriminate |].
  destruct core as [|c' core'].
  - simpl in Hcore. apply negb_true_iff in Hcore.
    cbn [String.append rstrip]. now rewrite (rstrip_blank _ Hws), Hcore.
  - change (ends_clean (String c' core') = true) in Hcore.
    specialize (IH Hcore).
    change ((String c (String c' core') ++ ws)%string)
      with (String c (String c' core' ++ ws)%string).
    cbn [rstrip]. cbn [rstrip] in IH. now rewrite IH.
Qed.

(** Stripping removes the white space around a text and nothing else. *)
Lemma strip_padded (ws1 core ws2 : string) :
  blank ws1 = true -> blank ws2 = true ->
  starts_clean core = true -> ends_clean core = true ->
  strip (ws1 ++ core ++ ws2) = core.
Proof.
  intros H1 H2 Hs He. unfold strip.
  rewrite (lstrip_blank_app _ _ H1).
  rewrite lstrip_clean by now apply starts_clean_app.
  now apply rstrip_app_blank.
Qed.

Lemma lstrip_split (s : string) :
  exists ws, s = (ws ++ lstrip s)%string /\ blank ws = true.
Proof.
  induction s as [|c s IH]; simpl.
  - exists EmptyString. now split.
  - destruct (is_space c) eqn:Hc.
    + destruct IH as [ws [Hs Hws]]. exists (String c ws). simpl.
      split; [now rewrite <- Hs | now rewrite Hc, Hws].
    + exists EmptyString. now split.
Qed.

Lemma rstrip_split (s : string) :
  exists ws, s = (rstrip s ++ ws)%string /\ blank ws = true.
Proof.
  induction s as [|c s IH]; simpl.
  - exists EmptyString. now split.
  - destruct IH as [ws [Hs Hws]].
    destruct (rstrip s) as [|c' r] eqn:Hr.
    + simpl in Hs. subst s. destruct (is_space c) eqn:Hc.
      * exists (String c ws). simpl. split; [reflexivity | now rewrite Hc, Hws].
      * exists ws. now split.
    + exists ws. split; [| exact Hws].
      change ((String c (String c' r) ++ ws)%string)
        with (String c (String c' r ++ ws)%string).
      now rewrite <- Hs.
Qed.

(** Joining undoes splitting. *)
Lemma join_split_newline (s : string) : join (split_newline s) = s.
Proof.
  induction s as [|c s IH]; [reflexivity |].
  cbn [split_newline].
  pose proof (split_newline_not_nil s) as Hne.
  destruct (Ascii.eqb c newline) eqn:Hc.
  - apply Ascii.eqb_eq in Hc. subst c.
    destruct (split_newline s) as [|piece rest]; [contradiction |].
    change (join (EmptyString :: piece :: rest))
      with (String newline (join (piece :: rest))).
    now rewrite IH.
  - destruct (split_newline s) as [|piece rest]; [contradiction |].
    rewrite <- IH. destruct rest; reflexivity.
Qed.

Lemma starts_clean_join_inv (lines : list string) :
  starts_clean (join lines) = true ->
  starts_clean (hd EmptyString lines) = true.
Proof.
  destruct lines as [|l rest]; [discriminate |].
  destruct rest as [|l' rest']; [trivial |].
  change (join (l :: l' :: rest'))
    with (l ++ String newline (join (l' :: rest')))%string.
  destruct l as [|c l]; [| trivial].
  intros H. cbn in H. discriminate H.
Qed.

Lemma ends_clean_app_newline (a b : string) :
  ends_clean (a ++ String newline b) = true -> ends_clean b = true.
Proof.
  induction a as [|c a IH].
  - destruct b as [|c b]; [| trivial].
    intros H. cbn in H. discriminate H.
  - change ((String c a ++ String newline b)%string)
      with (String c (a ++ String newline b)%string).
    destruct (a ++ String newline b)%string eqn:Hab.
    + destruct a; discriminate Hab.
    + intros H. apply IH. exact H.
Qed.

Lemma ends_clean_join_inv (lines : list string) :
  ends_clean (join lines) = true ->
  ends_clean (last lines EmptyString) = true.
Proof.
  induction lines as [|l rest IH]; [discriminate |].
  destruct rest as [|l' rest']; [trivial |].
  change (join (l :: l' :: rest'))
    with (l ++ String newline (join (l' :: rest')))%string.
  intros H. apply ends_clean_app_newline in H.
  change (last (l :: l' :: rest') EmptyString)
    with (last (l' :: rest') EmptyString).
  now apply IH.
Qed.

(** Every text is white space, or lines between two runs of white
    space. *)
Lemma text_shape (text : string) :
  blank text = true
  \/ exists ws1 lines ws2,
       text = (ws1 ++ join lines ++ ws2)%string
       /\ blank ws1 = true /\ blank ws2 = true
       /\ Forall (fun l => occurs newline l = false) lines
       /\ starts_clean (hd EmptyString lines) = true
       /\ ends_clean (last lines EmptyString) = true.
Proof.
  destruct (lstrip_split text) as [ws1 [H1 Hws1]].
  destruct (rstrip_split (lstrip text)) as [ws2 [H2 Hws2]].
  fold (strip text) in H2.
  destruct (strip_shape text) as [He | [Hs He]].
  - left. rewrite H1, H2, He. now apply blank_app.
  - right. exists ws1, (split_newline (strip text)), ws2.
    rewrite join_split_newline. repeat split; try assumption.
    + now rewrite <- H2.
    + apply split_newline_pieces.
    + apply starts_clean_join_inv. now rewrite join_split_newline.
    + apply ends_clean_join_inv. now rewrite join_split_newline.
Qed.

(** C10, as amended: the lines that count are those of the text between
    its leading and its trailing white space.  A raw text block is either
    white space only, and gives no record, or some white space, then [n]
    lines of which the first starts and the last ends with a character
    that is not white space, then some white space; it gives one record
    per complete group of three of these lines, in order, the record of
    group [k] being built from lines [3k], [3k+1] and [3k+2]: exactly
    [n / 3] records (floor division).  One or two trailing lines yield no
    record, and the function has no error outcome. *)
Theorem get_tle_data_of_raw_text (response_text : string) :
  (blank response_text = true -> get_tle_data response_text = [])
  /\ (forall ws1 lines ws2,
        response_text = (ws1 ++ join lines ++ ws2)%string ->
        blank ws1 = true -> blank ws2 = true ->
        Forall (fun l => occurs newline l = false) lines ->
        starts_clean (hd EmptyString lines) = true ->
        ends_clean (last lines EmptyString) = true ->
        get_tle_data response_text
        = map (fun k =>
                 mkSatellite (strip (nth (3 * k) lines EmptyString))
                   (slice 2 7 (nth (3 * k + 1) lines EmptyString))
                   (nth (3 * k + 1) lines EmptyString)
                   (nth (3 * k + 2) lines EmptyString))
              (seq 0 (List.length lines / 3))
        /\ List.length (get_tle_data response_text) = List.length lines / 3)
  /\ (blank response_text = true
      \/ exists ws1 lines ws2,
           response_text = (ws1 ++ join lines ++ ws2)%string
           /\ blank ws1 = true /\ blank ws2 = true
           /\ Forall (fun l => occurs newline l = false) lines
           /\ starts_clean (hd EmptyString lines) = true
           /\ ends_clean (last lines EmptyString) = true).
Proof.
  split; [| split].
  - intros H. unfold get_tle_data, tle_lines, strip.
    now rewrite (lstrip_blank _ H).
  - intros ws1 lines ws2 -> H1 H2 Hall Hs He.
    assert (Hrec : get_tle_data (ws1 ++ join lines ++ ws2)
                   = map (record_at lines) (seq 0 (List.length lines / 3))).
    { unfold get_tle_data, tle_lines.
      rewrite (strip_padded ws1 (join lines) ws2 H1 H2)
        by (now apply starts_clean_join || now apply ends_clean_join).
      rewrite split_newline_join; [apply group_records_spec | | exact Hall].
      intros ->. discriminate Hs. }
    split; [exact Hrec |].
    now rewrite Hrec, length_map, length_seq.
  - apply text_shape.
Qed.

Lemma get_tle_data_of_raw_text_witness :
  get_tle_data (" " ++ Toy.nl ++ join Samples.five_lines ++ Toy.nl)
  = [mkSatellite "N1" "" "L1" "L2"].
Proof.
  refine (proj1 (proj1 (proj2 (get_tle_data_of_raw_text _))
                   (" " ++ Toy.nl)%string Samples.five_lines Toy.nl
                   _ _ _ _ _ _)).
  - reflexivity.
  - reflexivity.
  - reflexivity.
  - repeat constructor.
  - reflexivity.
  - reflexivity.
Defined.

(** C10, as stated, fails on a block of six lines whose first line is a
    space: the text is stripped before it is split, five lines are left,
    and one record is returned where six lines make two groups. *)
Lemma raw_line_count_is_not_the_record_count :
  List.length Samples.six_lines = 6
  /\ get_tle_data (join Samples.six_lines) = [mkSatellite "N1" "" "L1" "L2"]
  /\ List.length (get_tle_data (join Samples.six_lines))
     <> List.length Samples.six_lines / 3.
Proof.
  split; [reflexivity |]. split; [reflexivity |].
  vm_compute. discriminate.
Qed.

End RawText.

(** * Satellite selection *)

Module SelectionFacts.
Import PyStr Lines Catalog Selection StripFacts.

(** [next] returns the first element that passes the test. *)
Lemma next_or_none_some (test : Satellite -> bool)
    (satellites : list Satellite) (r : Satellite) :
  next_or_none test satellites = Some r ->
  exists before after,
    satellites = before ++ r :: after
    /\ test r = true
    /\ Forall (fun s => test s = false) before.
Proof.
  induction satellites as [|s rest IH]; simpl; [discriminate |].
  destruct (test s) eqn:Hs; intros H.
  - inversion H; subst. exists [], rest. repeat split; [assumption | constructor].
  - destruct (IH H) as [before [after [-> [Hr Hall]]]].
    exists (s :: before), after. repeat split; [assumption |].
    now constructor.
Qed.

Lemma next_or_none_none (test : Satellite -> bool)
    (satellites : list Satellite) :
  next_or_none test satellites = None
  <-> Forall (fun s => test s = false) satellites.
Proof.
  induction satellites as [|s rest IH]; simpl.
  - split; [constructor | reflexivity].
  - destruct (test s) eqn:Hs; split; intros H.
    + discriminate H.
    + inversion H; congruence.
    + constructor; [assumption | now apply IH].
    + inversion H; subst. now apply IH.
Qed.

Lemma next_or_none_finds (test : Satellite -> bool)
    (satellites : list Satellite) (r : Satellite) :
  In r satellites -> test r = true ->
  exists r', next_or_none test satellites = Some r'.
Proof.
  intros Hin Hr.
  destruct (next_or_none test satellites) as [r'|] eqn:H; [eauto |].
  apply next_or_none_none in H. rewrite Forall_forall in H.
  specialize (H r Hin). congruence.
Qed.

(** X6: choosing a name the select box offers never fails, and gives the
    first record of the catalogue that bears this name; a later record of
    the same name cannot be chosen. *)
Theorem select_by_name_first_match (satellites : list Satellite)
    (selected : string) :
  In selected (options satellites) ->
  exists r before after,
    select_by_name satellites (Some selected) = inr r
    /\ satellites = before ++ r :: after
    /\ name r = selected
    /\ Forall (fun s => name s <> selected) before.
Proof.
  intros Hin. unfold options in Hin. apply in_map_iff in Hin.
  destruct Hin as [r0 [Hname Hin0]].
  destruct (next_or_none_finds (name_is (Some selected)) satellites r0 Hin0)
    as [r Hr].
  { simpl. rewrite Hname. apply String.eqb_refl. }
  destruct (next_or_none_some _ _ _ Hr) as [before [after [Hsplit [Ht Hall]]]].
  exists r, before, after. unfold select_by_name. rewrite Hr.
  repeat split; try assumption.
  - simpl in Ht. now apply String.eqb_eq in Ht.
  - eapply Forall_impl; [| exact Hall]. simpl. intros s Hs Heq.
    rewrite Heq, String.eqb_refl in Hs. discriminate.
Qed.

Lemma select_by_name_first_match_witness :
  select_by_name Samples.catalogue (Some "DEBRIS")
  = inr (mkSatellite "DEBRIS" "25544" Toy.iss_line1 Toy.iss_line2).
Proof.
  destruct (select_by_name_first_match Samples.catalogue "DEBRIS")
    as [r [before [after [Hsel _]]]].
  - left. reflexivity.
  - reflexivity.
Defined.

(** X7: when the fetched text has fewer than three lines, a blank response
    included, the catalogue is empty, the select box has nothing to offer,
    and the selection by name raises [StopIteration] whatever it is given. *)
Theorem select_by_name_on_short_response (response_text : string)
    (selected : option string) :
  List.length (tle_lines response_text) < 3 ->
  options (get_tle_data response_text) = []
  /\ select_by_name (get_tle_data response_text) selected
     = inl StopIteration.
Proof.
  intros Hlen.
  assert (Hnil : get_tle_data response_text = []).
  { unfold get_tle_data. rewrite CatalogFacts.group_records_spec.
    replace (List.length (tle_lines response_text) / 3) with 0;
      [reflexivity |].
    symmetry. apply Nat.div_small. exact Hlen. }
  rewrite Hnil. split; reflexivity.
Qed.

Lemma select_by_name_on_short_response_witness :
  select_by_name (get_tle_data ("ISS (ZARYA)" ++ Toy.nl ++ Toy.iss_line1))
    None
  = inl StopIteration.
Proof.
  apply select_by_name_on_short_response. vm_compute. lia.
Defined.

(** X8: a record found by identifier is the first one of the catalogue
    whose identifier equals the stripped input; so its identifier neither
    starts nor ends with white space, and a record whose identifier does is
    never found. *)
Theorem select_by_norad_first_match (satellites : list Satellite)
    (norad_input : string) (r : Satellite) :
  select_by_norad satellites norad_input = Bound (Some r) ->
  (exists before after,
     satellites = before ++ r :: after
     /\ Forall (fun s => norad_id s <> strip norad_input) before)
  /\ norad_id r = strip norad_input
  /\ strip (norad_id r) = norad_id r.
Proof.
  unfold select_by_norad. intros H.
  destruct norad_input as [|c input]; [discriminate |].
  inversion H as [Hnext]. clear H.
  destruct (next_or_none_some _ _ _ Hnext)
    as [before [after [Hsplit [Ht Hall]]]].
  apply String.eqb_eq in Ht.
  split; [| split].
  - exists before, after. split; [assumption |].
    eapply Forall_impl; [| exact Hall]. simpl. intros s Hs Heq.
    rewrite Heq, String.eqb_refl in Hs. discriminate.
  - exact Ht.
  - rewrite Ht. apply strip_idempotent.
Qed.

Lemma select_by_norad_first_match_witness :
  norad_id (mkSatellite "DEBRIS" "28654" Samples.noaa_line1 Toy.iss_line2)
  = strip " 28654 ".
Proof.
  refine (proj1 (proj2 (select_by_norad_first_match Samples.catalogue
                          " 28654 " _ _))).
  vm_compute. reflexivity.
Defined.

(** X9: for a non-empty input, the lookup binds [None] exactly when no
    record of the catalogue has the stripped input as its identifier. *)
Theorem select_by_norad_none (satellites : list Satellite)
    (norad_input : string) :
  norad_input <> EmptyString ->
  (select_by_norad satellites norad_input = Bound None
   <-> Forall (fun s => norad_id s <> strip norad_input) satellites).
Proof.
  intros Hne. unfold select_by_norad.
  destruct norad_input as [|c input]; [contradiction |].
  split; intros H.
  - inversion H as [Hnext]. apply next_or_none_none in Hnext.
    eapply Forall_impl; [| exact Hnext]. simpl. intros s Hs Heq.
    rewrite Heq, String.eqb_refl in Hs. discriminate.
  - f_equal. apply next_or_none_none.
    eapply Forall_impl; [| exact H]. simpl. intros s Hs.
    now apply String.eqb_neq.
Qed.

Lemma select_by_norad_none_witness :
  select_by_norad Samples.catalogue "99999" = Bound None.
Proof.
  apply (select_by_norad_none Samples.catalogue "99999").
  - discriminate.
  - repeat constructor; discriminate.
Defined.

(** X10: white space around the identifier typed does not matter, as long
    as something else was typed. *)
Theorem select_by_norad_ignores_padding (satellites : list Satellite)
    (norad_input : string) :
  strip norad_input <> EmptyString ->
  select_by_norad satellites norad_input
  = select_by_norad satellites (strip norad_input).
Proof.
  intros Hne. unfold select_by_norad.
  destruct norad_input as [|c input]; [contradiction Hne; reflexivity |].
  pose proof (strip_idempotent (String c input)) as Hidem.
  destruct (strip (String c input)) as [|c' s'] eqn:Hs; [contradiction |].
  now rewrite Hidem.
Qed.

Lemma select_by_norad_ignores_padding_witness :
  select_by_norad Samples.catalogue "  25544 "
  = select_by_norad Samples.catalogue "25544".
Proof.
  apply (select_by_norad_ignores_padding Samples.catalogue "  25544 ").
  vm_compute. discriminate.
Defined.

(** X11: an input of white space only is not taken for an empty one: it
    looks up the empty identifier, which is the identifier of every record
    whose line 1 has fewer than three characters. *)
Theorem select_by_norad_blank_input (satellites : list Satellite)
    (norad_input : string) :
  norad_input <> EmptyString ->
  blank norad_input = true ->
  select_by_norad satellites norad_input
  = Bound (next_or_none
             (fun sat => String.eqb (norad_id sat) EmptyString) satellites).
Proof.
  intros Hne Hblank. unfold select_by_norad.
  destruct norad_input as [|c input]; [contradiction |].
  unfold strip. now rewrite (lstrip_blank _ Hblank).
Qed.

Lemma select_by_norad_blank_input_witness :
  select_by_norad Samples.catalogue " "
  = Bound (Some (mkSatellite "STUB" "" "1" "2")).
Proof.
  rewrite (select_by_norad_blank_input Samples.catalogue " ").
  - reflexivity.
  - discriminate.
  - reflexivity.
Defined.

End SelectionFacts.

(** * Sampling instants and showing them *)

Module DatetimeFacts.
Import Datetime.

Local Open Scope Z_scope.

Lemma range_from_step1 (fuel start stop : nat) :
  (stop <= fuel + start)%nat ->
  PyStr.range_from fuel start stop 1 = seq start (stop - start).
Proof.
  revert start. induction fuel as [|fuel IH]; intros start H; simpl.
  - replace (stop - start)%nat with 0%nat by lia. reflexivity.
  - destruct (start <? stop)%nat eqn:Hlt.
    + apply Nat.ltb_lt in Hlt.
      replace (stop - start)%nat with (S (stop - (start + 1)))%nat by lia.
      rewrite IH by lia. simpl. now rewrite Nat.add_1_r.
    + apply Nat.ltb_ge in Hlt.
      replace (stop - start)%nat with 0%nat by lia. reflexivity.
Qed.

Lemma range_int_seq (n : Z) :
  range_int n = map Z.of_nat (seq 0 (Z.to_nat n)).
Proof.
  unfold range_int, PyStr.range.
  rewrite range_from_step1 by lia. now rewrite Nat.sub_0_r.
Qed.

Lemma comprehension_inr {E A B : Type} (f : A -> result E B) (l : list A) :
  forall bs, comprehension f l = inr bs -> Forall2 (fun a b => f a = inr b) l bs.
Proof.
  induction l as [|a l IH]; simpl; intros bs H.
  - inversion H. constructor.
  - destruct (f a) as [e|b] eqn:Hb; simpl in H; [discriminate |].
    destruct (comprehension f l) as [e|bs'] eqn:Hl; simpl in H;
      [discriminate |].
    inversion H; subst. constructor; [assumption | now apply IH].
Qed.

Lemma comprehension_map {E A B : Type} (f : A -> result E B) (g : A -> B)
    (l : list A) :
  Forall (fun a => f a = inr (g a)) l -> comprehension f l = inr (map g l).
Proof.
  induction 1 as [|a l Ha _ IH]; simpl; [reflexivity |].
  rewrite Ha. simpl. rewrite IH. reflexivity.
Qed.

Lemma add_seconds_inr (t t' k : Z) :
  add_seconds t k = inr t' ->
  t' = t + k * us_per_second /\ in_range t' = true.
Proof.
  unfold add_seconds, timedelta_seconds.
  destruct (Z.abs (k / 86400) <=? 999999999); simpl; [| discriminate].
  destruct (in_range (t + k * us_per_second)) eqn:Hr; [| discriminate].
  intros H. inversion H; subst. now split.
Qed.

(** The instant of sample [i]. *)
Lemma sample_times_shape (current_time num_samples time_interval : Z)
    (times : list datetime) :
  sample_times current_time num_samples time_interval = inr times ->
  times = map (fun i => current_time
                        + Z.of_nat i * time_interval * us_per_second)
              (seq 0 (Z.to_nat num_samples)).
Proof.
  unfold sample_times. rewrite range_int_seq. intros H.
  apply comprehension_inr in H.
  remember (seq 0 (Z.to_nat num_samples)) as idx eqn:Hidx. clear Hidx.
  revert times H. induction idx as [|i idx IH]; intros times H.
  - simpl in H. inversion H. reflexivity.
  - simpl in H. inversion H as [|? b ? bs Hb Hrest]; subst.
    apply add_seconds_inr in Hb. destruct Hb as [-> _].
    simpl. f_equal. now apply IH.
Qed.

Lemma nth_error_samples (g : nat -> Z) (n i : nat) (a : Z) :
  nth_error (map g (seq 0 n)) i = Some a -> (i < n)%nat /\ a = g i.
Proof.
  rewrite nth_error_map, nth_error_seq.
  destruct (i <? n)%nat eqn:Hi; simpl; [| discriminate].
  apply Nat.ltb_lt in Hi. intros H. inversion H. now split.
Qed.

Lemma last_samples (g : nat -> Z) (m : nat) (d : Z) :
  last (map g (seq 0 (S m))) d = g m.
Proof. rewrite seq_S, map_app. simpl. apply last_last. Qed.

(** X12: with the bounds the page puts on its inputs (2 to 50 samples, 1
    to 3600 seconds apart) and a clock that reads a date before
    9999-12-29, the list of instants is built without error: sample [i] is
    [i * time_interval] seconds after [current_time]. *)
Theorem sample_times_returns (current_time num_samples time_interval : Z) :
  2 <= num_samples <= 50 ->
  1 <= time_interval <= 3600 ->
  0 <= current_time < (max_ordinal - 3) * us_per_day ->
  sample_times current_time num_samples time_interval
  = inr (map (fun i => current_time
                       + Z.of_nat i * time_interval * us_per_second)
             (seq 0 (Z.to_nat num_samples))).
Proof.
  intros Hn Hiv Hct. unfold sample_times. rewrite range_int_seq.
  rewrite (comprehension_map _
             (fun i => current_time + i * time_interval * us_per_second)).
  - now rewrite map_map.
  - apply Forall_forall. intros i Hi. apply in_map_iff in Hi.
    destruct Hi as [j [<- Hj]]. apply in_seq in Hj.
    assert (Hp : 0 <= Z.of_nat j * time_interval <= 176400) by nia.
    set (p := Z.of_nat j * time_interval) in *. clearbody p.
    unfold add_seconds, timedelta_seconds.
    replace (Z.abs (p / 86400) <=? 999999999) with true
      by (symmetry; apply Z.leb_le; Z.div_mod_to_equations; lia).
    simpl. unfold in_range, max_ordinal, us_per_day, us_per_second in *.
    replace (0 <=? current_time + p * 1000000) with true
      by (symmetry; apply Z.leb_le; lia).
    replace (current_time + p * 1000000 <? 3652059 * (86400 * 1000000))
      with true by (symmetry; apply Z.ltb_lt; lia).
    reflexivity.
Qed.

Lemma sample_times_returns_witness :
  sample_times Samples.noon 3 60
  = inr [Samples.noon; Samples.noon + 60 * us_per_second;
         Samples.noon + 120 * us_per_second].
Proof.
  rewrite (sample_times_returns Samples.noon 3 60).
  - reflexivity.
  - lia.
  - lia.
  - vm_compute. split; [discriminate | reflexivity].
Defined.

(** X13: whenever the list of instants is built, it has [num_samples]
    instants, consecutive ones are [time_interval] seconds apart, and from
    the first to the last there is exactly the duration the page
    announces, [(num_samples - 1) * time_interval] seconds. *)
Theorem sample_times_spacing (current_time num_samples time_interval : Z)
    (times : list datetime) :
  sample_times current_time num_samples time_interval = inr times ->
  List.length times = Z.to_nat num_samples
  /\ (forall i a b,
        nth_error times i = Some a -> nth_error times (S i) = Some b ->
        b - a = time_interval * us_per_second)
  /\ (1 <= num_samples ->
      hd current_time times = current_time
      /\ last times current_time - hd current_time times
         = tracking_duration num_samples time_interval * us_per_second).
Proof.
  intros H. apply sample_times_shape in H. subst times.
  split; [| split].
  - now rewrite length_map, length_seq.
  - intros i a b Ha Hb.
    apply nth_error_samples in Ha. apply nth_error_samples in Hb.
    destruct Ha as [_ ->]. destruct Hb as [_ ->]. lia.
  - intros Hn. unfold tracking_duration.
    destruct (Z.to_nat num_samples) as [|m] eqn:Hm; [lia |].
    rewrite last_samples. simpl hd. split; lia.
Qed.

Lemma sample_times_spacing_witness :
  last [Samples.noon; Samples.noon + 60 * us_per_second;
        Samples.noon + 120 * us_per_second] Samples.noon
  - Samples.noon
  = tracking_duration 3 60 * us_per_second.
Proof.
  assert (H : sample_times Samples.noon 3 60
              = inr [Samples.noon; Samples.noon + 60 * us_per_second;
                     Samples.noon + 120 * us_per_second])
    by (vm_compute; reflexivity).
  exact (proj2 (proj2 (proj2 (sample_times_spacing Samples.noon 3 60 _ H))
                  ltac:(lia))).
Defined.

(** X14: with a positive interval the instants come in strictly
    increasing order: a later sample is a later instant. *)
Theorem sample_times_increasing (current_time num_samples time_interval : Z)
    (times : list datetime) (i j : nat) (a b : datetime) :
  sample_times current_time num_samples time_interval = inr times ->
  1 <= time_interval ->
  (i < j)%nat ->
  nth_error times i = Some a ->
  nth_error times j = Some b ->
  a < b.
Proof.
  intros H Hiv Hij Ha Hb. apply sample_times_shape in H. subst times.
  apply nth_error_samples in Ha. apply nth_error_samples in Hb.
  destruct Ha as [_ ->]. destruct Hb as [_ ->].
  unfold us_per_second. nia.
Qed.

Lemma sample_times_increasing_witness :
  Samples.noon < Samples.noon + 120 * us_per_second.
Proof.
  assert (H : sample_times Samples.noon 3 60
              = inr [Samples.noon; Samples.noon + 60 * us_per_second;
                     Samples.noon + 120 * us_per_second])
    by (vm_compute; reflexivity).
  exact (sample_times_increasing Samples.noon 3 60 _ 0 2 _ _ H
           ltac:(lia) ltac:(lia) eq_refl eq_refl).
Defined.

Lemma digit_char_inj (a b : Z) :
  0 <= a < 10 -> 0 <= b < 10 -> digit_char a = digit_char b -> a = b.
Proof.
  intros Ha Hb H. unfold digit_char in H.
  apply (f_equal nat_of_ascii) in H.
  rewrite !nat_ascii_embedding in H by lia. lia.
Qed.

Lemma two_digits_inj (a b : Z) :
  0 <= a < 100 -> 0 <= b < 100 -> two_digits a = two_digits b -> a = b.
Proof.
  intros Ha Hb H. unfold two_digits in H. inversion H as [[H1 H2]].
  apply digit_char_inj in H1; [| Z.div_mod_to_equations; lia ..].
  apply digit_char_inj in H2; [| Z.div_mod_to_equations; lia ..].
  Z.div_mod_to_equations. lia.
Qed.

Lemma fields_in_range (t : datetime) :
  0 <= hour t < 24 /\ 0 <= minute t < 60 /\ 0 <= second t < 60.
Proof.
  unfold hour, minute, second.
  repeat split; Z.div_mod_to_equations; lia.
Qed.

Lemma second_of_day_fields (t : datetime) :
  second_of_day t = hour t * 3600 + minute t * 60 + second t.
Proof.
  unfold second_of_day, hour, minute, second,
    us_per_hour, us_per_minute, us_per_second.
  change (3600 * 1000000) with (1000000 * 3600).
  change (60 * 1000000) with (1000000 * 60).
  rewrite <- !Z.div_div by lia.
  set (s := t / 1000000). clearbody s.
  Z.div_mod_to_equations. lia.
Qed.

Lemma fields_of_second_of_day (t : datetime) :
  hour t = second_of_day t / 3600
  /\ minute t = (second_of_day t / 60) mod 60
  /\ second t = second_of_day t mod 60.
Proof.
  pose proof (second_of_day_fields t) as H.
  pose proof (fields_in_range t) as R.
  set (sod := second_of_day t) in *. clearbody sod.
  set (hh := hour t) in *. set (mm := minute t) in *.
  set (ss := second t) in *. clearbody hh mm ss.
  repeat split; Z.div_mod_to_equations; lia.
Qed.

Lemma strftime_HMS_fields (t : datetime) :
  strftime_HMS t
  = String (digit_char (hour t / 10))
      (String (digit_char (hour t mod 10))
         (String ":"
            (String (digit_char (minute t / 10))
               (String (digit_char (minute t mod 10))
                  (String ":"
                     (String (digit_char (second t / 10))
                        (String (digit_char (second t mod 10))
                           EmptyString))))))).
Proof. reflexivity. Qed.

Lemma second_of_day_of_strftime (t1 t2 : datetime) :
  strftime_HMS t1 = strftime_HMS t2 -> second_of_day t1 = second_of_day t2.
Proof.
  intros H. rewrite !strftime_HMS_fields in H.
  inversion H as [[H1 H2 H3 H4 H5 H6]]. clear H.
  pose proof (fields_in_range t1) as [Rh1 [Rm1 Rs1]].
  pose proof (fields_in_range t2) as [Rh2 [Rm2 Rs2]].
  assert (Hh : hour t1 = hour t2)
    by (apply two_digits_inj; [lia | lia | unfold two_digits; congruence]).
  assert (Hm : minute t1 = minute t2)
    by (apply two_digits_inj; [lia | lia | unfold two_digits; congruence]).
  assert (Hs : second t1 = second t2)
    by (apply two_digits_inj; [lia | lia | unfold two_digits; congruence]).
  rewrite !second_of_day_fields. congruence.
Qed.

Lemma strftime_of_second_of_day (t1 t2 : datetime) :
  second_of_day t1 = second_of_day t2 -> strftime_HMS t1 = strftime_HMS t2.
Proof.
  intros H.
  destruct (fields_of_second_of_day t1) as [Hh1 [Hm1 Hs1]].
  destruct (fields_of_second_of_day t2) as [Hh2 [Hm2 Hs2]].
  rewrite !strftime_HMS_fields, Hh1, Hm1, Hs1, Hh2, Hm2, Hs2, H.
  reflexivity.
Qed.

(** X15: the clock format keeps the second of the day and nothing else:
    two instants are shown alike exactly when they fall on the same second
    of their day.  The date and the microseconds are not shown. *)
Theorem strftime_HMS_same_second_of_day (t1 t2 : datetime) :
  strftime_HMS t1 = strftime_HMS t2
  <-> second_of_day t1 = second_of_day t2.
Proof.
  split.
  - apply second_of_day_of_strftime.
  - apply strftime_of_second_of_day.
Qed.

Lemma second_of_day_shift (t k : Z) :
  second_of_day (t + k * us_per_second) = (second_of_day t + k) mod 86400.
Proof.
  unfold second_of_day, us_per_second.
  rewrite Z.div_add by lia.
  set (s := t / 1000000). clearbody s.
  Z.div_mod_to_equations. lia.
Qed.

(** X16: in the table, the rows of samples [i] and [j] show the same time
    exactly when the samples are a whole number of days apart, that is
    when [(j - i) * time_interval] is a multiple of 86400. *)
Theorem sample_rows_shown_alike (current_time num_samples time_interval : Z)
    (times : list datetime) (i j : nat) (a b : datetime) :
  sample_times current_time num_samples time_interval = inr times ->
  nth_error times i = Some a ->
  nth_error times j = Some b ->
  (strftime_HMS a = strftime_HMS b
   <-> ((Z.of_nat j - Z.of_nat i) * time_interval) mod 86400 = 0).
Proof.
  intros H Ha Hb. apply sample_times_shape in H. subst times.
  apply nth_error_samples in Ha. apply nth_error_samples in Hb.
  destruct Ha as [_ ->]. destruct Hb as [_ ->].
  replace ((Z.of_nat j - Z.of_nat i) * time_interval)
    with (Z.of_nat j * time_interval - Z.of_nat i * time_interval) by ring.
  split; intros H.
  - apply second_of_day_of_strftime in H.
    rewrite !second_of_day_shift in H.
    set (p := Z.of_nat i * time_interval) in *.
    set (q := Z.of_nat j * time_interval) in *.
    set (s := second_of_day current_time) in *. clearbody p q s.
    Z.div_mod_to_equations. lia.
  - apply strftime_of_second_of_day. rewrite !second_of_day_shift.
    set (p := Z.of_nat i * time_interval) in *.
    set (q := Z.of_nat j * time_interval) in *.
    set (s := second_of_day current_time) in *. clearbody p q s.
    Z.div_mod_to_equations. lia.
Qed.

(** Fifty samples an hour apart: samples 0 and 24 are a day apart. *)
Lemma sample_rows_shown_alike_witness :
  strftime_HMS Samples.noon
  = strftime_HMS (Samples.noon + 24 * 3600 * us_per_second).
Proof.
  assert (H : sample_times Samples.noon 50 3600
              = inr (map (fun i => Samples.noon
                                   + Z.of_nat i * 3600 * us_per_second)
                         (seq 0 50)))
    by (vm_compute; reflexivity).
  apply (proj2 (sample_rows_shown_alike Samples.noon 50 3600 _ 0 24 _ _ H
                  eq_refl eq_refl)).
  reflexivity.
Defined.

End DatetimeFacts.

(** * More on the position pipeline *)

Section PipelineMore.

Context (rt : Runtime).

Local Abbreviation state := (state_t rt).

Lemma setup_inr (clock : Instant rt) (sat : Satellite)
    (olat olon : Float rt) (st0 : state) :
  setup rt clock sat olat olon = inr st0 ->
  exists a b s,
    to_angle rt (str rt olat) = inr a
    /\ to_angle rt (str rt olon) = inr b
    /\ readtle rt (name sat) (line1 sat) (line2 sat) = inr s
    /\ st0 = mkLoopState (Observer.make clock a b) s [].
Proof.
  unfold setup. intros H.
  apply bind_inr in H. destruct H as [a [Ha H]].
  apply bind_inr in H. destruct H as [b [Hb H]].
  apply bind_inr in H. destruct H as [s [Hs H]].
  inversion H. exists a, b, s. auto.
Qed.

Lemma last_cons_default {A : Type} (x : A) (l : list A) (d d' : A) :
  last (x :: l) d = last (x :: l) d'.
Proof.
  revert x. induction l as [|y l IH]; intros x; [reflexivity |].
  change (last (y :: l) d = last (y :: l) d'). apply IH.
Qed.

(** The loop never moves the observer; it dates it at the last instant. *)
Lemma for_each_time_observer (times : list (Instant rt)) :
  forall st st' : state,
    for_each_time rt st times = inr st' ->
    Observer.lat (observer st') = Observer.lat (observer st)
    /\ Observer.lon (observer st') = Observer.lon (observer st)
    /\ Observer.date (observer st')
       = last times (Observer.date (observer st)).
Proof.
  induction times as [|t times IH]; intros st st' H; simpl in H.
  - inversion H. auto.
  - apply bind_inr in H. destruct H as [st1 [H1 H]].
    apply IH in H. destruct H as [Hlat [Hlon Hdate]].
    apply track_instant_inr in H1.
    destruct H1 as [b [la [lo [_ [_ [_ ->]]]]]]. simpl in *.
    repeat split; try assumption.
    rewrite Hdate. destruct times as [|t' times']; [reflexivity |].
    change (last (t :: t' :: times') (Observer.date (observer st)))
      with (last (t' :: times') (Observer.date (observer st))).
    apply last_cons_default.
Qed.

(** X17: an exception out of [calculate_satellite_positions] is either
    the exception of the set-up (the conversion of the observer's
    coordinates, then [ephem.readtle]), raised before any instant is looked
    at, or the exception of the iteration for one instant, every instant
    before it having been processed without error. *)
Theorem calculate_exception_origin (clock : Instant rt) (sat : Satellite)
    (olat olon : Float rt) (times : list (Instant rt)) (e : Exn rt) :
  calculate_satellite_positions rt clock sat olat olon times = inl e ->
  setup rt clock sat olat olon = inl e
  \/ exists (st0 st : state) before t after,
       setup rt clock sat olat olon = inr st0
       /\ times = before ++ t :: after
       /\ for_each_time rt st0 before = inr st
       /\ track_instant rt st t = inl e.
Proof.
  unfold calculate_satellite_positions. intros H.
  apply bind_inl in H. destruct H as [H | [st0 [H0 H]]]; [now left |].
  right. apply bind_inl in H. destruct H as [H | [st [_ H]]];
    [| discriminate H].
  apply for_each_time_inl in H.
  destruct H as [before [t [after [st [Htimes [Hb Ht]]]]]].
  exists st0, st, before, t, after. auto.
Qed.

(** X18: asking for more instants does not change the positions of the
    first ones: if the call returns for [times ++ more], it returns for
    [times] alone, with the first positions of the longer track. *)
Theorem calculate_prefix (clock : Instant rt) (sat : Satellite)
    (olat olon : Float rt) (times more : list (Instant rt))
    (ps : list (position_t rt)) :
  calculate_satellite_positions rt clock sat olat olon (times ++ more)
  = inr ps ->
  calculate_satellite_positions rt clock sat olat olon times
  = inr (firstn (List.length times) ps).
Proof.
  intros H. apply calculate_inr in H.
  destruct H as [st0 [stN [H0 [HN [Hnil Hps]]]]].
  rewrite for_each_time_app in HN.
  apply bind_inr in HN. destruct HN as [st [Hst Hmore]].
  unfold calculate_satellite_positions. rewrite H0. simpl.
  rewrite Hst. simpl. unfold ret. f_equal.
  apply for_each_time_appends in Hst. destruct Hst as [m1 [Hp1 Hm1]].
  apply for_each_time_appends in Hmore. destruct Hmore as [m2 [Hp2 Hm2]].
  rewrite Hnil in Hp1. simpl in Hp1.
  rewrite <- Hps, Hp2, Hp1.
  replace (List.length times) with (List.length m1 + 0)
    by (rewrite <- Hm1, length_map; lia).
  rewrite firstn_app_2. simpl. now rewrite app_nil_r.
Qed.

(** X19: during a run the observer stays where the set-up put it: after
    the loop its latitude and longitude are still the conversions of the
    two coordinates given, and its date is the last instant processed (the
    clock's, when there was no instant). *)
Theorem observer_stays_put (clock : Instant rt) (sat : Satellite)
    (olat olon : Float rt) (times : list (Instant rt)) (st0 st : state) :
  setup rt clock sat olat olon = inr st0 ->
  for_each_time rt st0 times = inr st ->
  to_angle rt (str rt olat) = inr (Observer.lat (observer st))
  /\ to_angle rt (str rt olon) = inr (Observer.lon (observer st))
  /\ Observer.date (observer st) = last times clock.
Proof.
  intros H0 H. apply setup_inr in H0.
  destruct H0 as [a [b [s [Ha [Hb [_ ->]]]]]].
  apply for_each_time_observer in H. simpl in H.
  destruct H as [-> [-> ->]]. auto.
Qed.

End PipelineMore.

Module PipelineRuns.
Import Toy.

Local Open Scope Z_scope.

Lemma calculate_exception_origin_witness :
  exists (st : state_t runtime),
    for_each_time runtime st0 [iss_epoch] = inr st
    /\ track_instant runtime st (iss_epoch + 400 * day) = inl too_far.
Proof.
  assert (H : calculate_satellite_positions runtime 0 iss 28 91
                [iss_epoch; iss_epoch + 400 * day; iss_epoch + 60]
              = inl too_far) by (vm_compute; reflexivity).
  destruct (calculate_exception_origin runtime 0 iss 28 91 _ _ H)
    as [Hsetup | [s0 [s [before [t [after [H0 [Htimes [Hb Ht]]]]]]]]].
  - vm_compute in Hsetup. discriminate Hsetup.
  - exists st1. split; vm_compute; reflexivity.
Defined.

Lemma calculate_prefix_witness :
  calculate_satellite_positions runtime 0 iss 28 91
    [iss_epoch; iss_epoch + 60]
  = inr (firstn 2 track).
Proof.
  assert (H : calculate_satellite_positions runtime 0 iss 28 91
                ([iss_epoch; iss_epoch + 60] ++ [iss_epoch + 30 * day])
              = inr track) by (vm_compute; reflexivity).
  exact (calculate_prefix runtime 0 iss 28 91 _ _ _ H).
Defined.

Lemma observer_stays_put_witness :
  toy_to_angle (toy_str 28) = inr 28
  /\ toy_to_angle (toy_str 91) = inr 91
  /\ Observer.date (observer st1) = iss_epoch.
Proof.
  assert (H0 : setup runtime 0 iss 28 91 = inr st0)
    by (vm_compute; reflexivity).
  assert (H1 : for_each_time runtime st0 [iss_epoch] = inr st1)
    by (vm_compute; reflexivity).
  exact (observer_stays_put runtime 0 iss 28 91 [iss_epoch] st0 st1 H0 H1).
Defined.

End PipelineRuns.

(** * The tracking action and the map *)

Module PlotFacts.
Import Plot.

Lemma coordinates_of_columns {Instant Float : Type}
    (ps qs : list (Position.t Instant Float)) :
  map Position.lon ps = map Position.lon qs ->
  map Position.lat ps = map Position.lat qs ->
  map (fun p => (Position.lon p, Position.lat p)) ps
  = map (fun p => (Position.lon p, Position.lat p)) qs.
Proof.
  revert qs. induction ps as [|p ps IH]; intros [|q qs] Hlon Hlat;
    simpl in *; try discriminate; [reflexivity |].
  inversion Hlon as [[H1 H2]]. inversion Hlat as [[H3 H4]].
  now rewrite H1, H3, (IH qs H2 H4).
Qed.

Lemma combine_columns {Instant Float : Type}
    (ps : list (Position.t Instant Float)) :
  combine (map Position.lon ps) (map Position.lat ps)
  = map (fun p => (Position.lon p, Position.lat p)) ps.
Proof. induction ps as [|p ps IH]; simpl; [reflexivity | now rewrite IH]. Qed.

(** X20: the map depends on the positions through their coordinates only:
    two tracks give the same figure exactly when they have the same
    longitudes and latitudes in the same order, whatever their instants;
    the figure has two traces, the path with one point per position and
    the observer's single point. *)
Theorem create_map_coordinates {Instant Float : Type}
    (ps qs : list (Position.t Instant Float)) (observer_lat observer_lon : Float) :
  (create_map ps observer_lat observer_lon
   = create_map qs observer_lat observer_lon
   <-> map (fun p => (Position.lon p, Position.lat p)) ps
       = map (fun p => (Position.lon p, Position.lat p)) qs)
  /\ exists path here,
       data (create_map ps observer_lat observer_lon) = [path; here]
       /\ combine (lon path) (lat path)
          = map (fun p => (Position.lon p, Position.lat p)) ps
       /\ lon here = [observer_lon]
       /\ lat here = [observer_lat].
Proof.
  split.
  - split; intros H.
    + unfold create_map in H. simpl in H. inversion H as [[Hlon Hlat]].
      now apply coordinates_of_columns.
    + unfold create_map. simpl.
      assert (Hlon : map Position.lon ps = map Position.lon qs).
      { apply (f_equal (map fst)) in H. rewrite !map_map in H. exact H. }
      assert (Hlat : map Position.lat ps = map Position.lat qs).
      { apply (f_equal (map snd)) in H. rewrite !map_map in H. exact H. }
      now rewrite Hlon, Hlat.
  - unfold create_map. simpl. eexists. eexists.
    split; [reflexivity |]. simpl.
    split; [apply combine_columns | split; reflexivity].
Qed.

End PlotFacts.

Module ScriptFacts.
Import PyStr Selection Datetime Script DatetimeFacts SelectionFacts.

Local Open Scope Z_scope.

Lemma bind_returns {E A B : Type} (m : result E A) (k : A -> result E B)
    (b : B) :
  bind m k = inr b -> exists a, m = inr a /\ k a = inr b.
Proof. destruct m as [e|a]; simpl; [discriminate | eauto]. Qed.

Lemma bind_raises {E A B : Type} (m : result E A) (k : A -> result E B)
    (e : E) :
  bind m k = inl e -> m = inl e \/ exists a, m = inr a /\ k a = inl e.
Proof. destruct m as [e'|a]; simpl; [left; congruence | eauto]. Qed.

Lemma lift_builtin_inr {E A : Type} (m : result builtin_exn A) (a : A) :
  lift_builtin (E := E) m = inr a -> m = inr a.
Proof. destruct m; simpl; [discriminate | congruence]. Qed.

Lemma lift_library_inr {E A : Type} (m : result E A) (a : A) :
  lift_library m = inr a -> m = inr a.
Proof. destruct m; simpl; [discriminate | congruence]. Qed.

Lemma add_seconds_inl (t k : Z) (b : builtin_exn) :
  add_seconds t k = inl b -> b = OverflowError.
Proof.
  unfold add_seconds, timedelta_seconds.
  destruct (Z.abs (k / 86400) <=? 999999999); simpl.
  - destruct (in_range _); [discriminate | intros H; now inversion H].
  - intros H. now inversion H.
Qed.

Lemma comprehension_inl {E A B : Type} (f : A -> result E B) (l : list A)
    (e : E) :
  comprehension f l = inl e -> exists a, In a l /\ f a = inl e.
Proof.
  induction l as [|a l IH]; simpl; [discriminate |].
  destruct (f a) as [e'|b] eqn:Ha; simpl.
  - intros H. inversion H; subst. exists a. auto.
  - destruct (comprehension f l) as [e'|bs]; simpl; [| discriminate].
    intros H. destruct (IH H) as [a' [Hin Hf]]. exists a'. auto.
Qed.

Lemma sample_times_inl (current_time num_samples time_interval : Z)
    (b : builtin_exn) :
  sample_times current_time num_samples time_interval = inl b ->
  b = OverflowError.
Proof.
  unfold sample_times. intros H. apply comprehension_inl in H.
  destruct H as [i [_ H]]. now apply add_seconds_inl in H.
Qed.

Lemma position_table_inr {Float : Type}
    (positions : list (Position.t datetime Float))
    (rows : list (string * Float * Float)) :
  position_table positions = inr rows ->
  rows = map (fun p => (strftime_HMS (Position.time p), Position.lat p,
                        Position.lon p)) positions.
Proof.
  destruct positions; simpl; [discriminate |]. intros H. now inversion H.
Qed.

Lemma table_times {Float : Type}
    (positions : list (Position.t datetime Float)) (times : list datetime) :
  map Position.time positions = times ->
  map (fun row : string * Float * Float => fst (fst row))
    (map (fun p => (strftime_HMS (Position.time p), Position.lat p,
                    Position.lon p)) positions)
  = map strftime_HMS times.
Proof. intros <-. rewrite !map_map. reflexivity. Qed.

Lemma table_coordinates {Float : Type}
    (positions : list (Position.t datetime Float)) :
  combine (map Position.lon positions) (map Position.lat positions)
  = map (fun row : string * Float * Float => (snd row, snd (fst row)))
      (map (fun p => (strftime_HMS (Position.time p), Position.lat p,
                      Position.lon p)) positions).
Proof. rewrite map_map. apply PlotFacts.combine_columns. Qed.

Section Track.

Context (h : Host).

Local Abbreviation rt := (runtime_of h).

Lemma positions_times (clock : datetime) (sat : Satellite)
    (olat olon : Float rt) (times : list datetime)
    (ps : list (position_t rt)) :
  calculate_satellite_positions rt clock sat olat olon times = inr ps ->
  map Position.time ps = times.
Proof.
  intros H. apply calculate_inr in H.
  destruct H as [st0 [stN [_ [HN [Hnil Hps]]]]].
  apply for_each_time_appends in HN. destruct HN as [more [Hpos Hmap]].
  rewrite Hnil in Hpos. simpl in Hpos.
  transitivity (map Position.time more); [| exact Hmap].
  f_equal. rewrite <- Hps. exact Hpos.
Qed.

(** X21: a lookup by identifier that finds nothing still binds the
    variable [satellite], to [None]; if the button is then pressed, the
    page does not ask to select a satellite first, as it does after an
    empty input: the pipeline is called on [None] and, the observer's
    coordinates once converted, raises [TypeError]. *)
Theorem track_after_failed_lookup (satellites : list Satellite)
    (norad_input : string) (current_time clock : datetime)
    (olat olon : Float rt) (num_samples time_interval : Z)
    (times : list datetime) (a b : Angle rt) :
  norad_input <> EmptyString ->
  Forall (fun s => norad_id s <> strip norad_input) satellites ->
  sample_times current_time num_samples time_interval = inr times ->
  to_angle rt (str rt olat) = inr a ->
  to_angle rt (str rt olon) = inr b ->
  track_button h (select_by_norad satellites norad_input) current_time
    clock olat olon num_samples time_interval
  = inl (Builtin TypeError)
  /\ track_button h (select_by_norad satellites EmptyString) current_time
       clock olat olon num_samples time_interval
     = inr PleaseSelectFirst.
Proof.
  intros Hne Hall Htimes Ha Hb. split; [| reflexivity].
  assert (Hsel : select_by_norad satellites norad_input = Bound None).
  { unfold select_by_norad.
    destruct norad_input as [|c input]; [contradiction |].
    f_equal. apply next_or_none_none.
    eapply Forall_impl; [| exact Hall]. simpl. intros s Hs.
    now apply String.eqb_neq. }
  rewrite Hsel. unfold track_button, calculate_for.
  rewrite Htimes. cbn [lift_builtin bind].
  rewrite Ha. cbn [lift_library bind].
  rewrite Hb. reflexivity.
Qed.

(** X22: what a successful run shows.  The page names the record selected
    and announces [(num_samples - 1) * time_interval] seconds; the table
    has one row per sample, row [i] bearing the clock time of
    [current_time] plus [i * time_interval] seconds; the path of the map
    goes through the coordinates of the rows, in order, and the observer's
    point is at the coordinates entered. *)
Theorem track_page (sat : Satellite) (current_time clock : datetime)
    (olat olon : Float rt) (num_samples time_interval : Z)
    (p : page (Float rt)) :
  track_button h (Bound (Some sat)) current_time clock olat olon
    num_samples time_interval = inr (Shown p) ->
  tracking_name p = name sat
  /\ tracking_norad_id p = norad_id sat
  /\ total_duration p = (num_samples - 1) * time_interval
  /\ map (fun row => fst (fst row)) (table p)
     = map (fun i => strftime_HMS
                       (current_time
                        + Z.of_nat i * time_interval * us_per_second))
           (seq 0 (Z.to_nat num_samples))
  /\ exists path here,
       Plot.data (chart p) = [path; here]
       /\ combine (Plot.lon path) (Plot.lat path)
          = map (fun row => (snd row, snd (fst row))) (table p)
       /\ Plot.lon here = [olon]
       /\ Plot.lat here = [olat].
Proof.
  unfold track_button. intros H.
  apply bind_returns in H. destruct H as [times [Htimes H]].
  apply bind_returns in H. destruct H as [positions [Hpos H]].
  apply bind_returns in H. destruct H as [rows [Hrows H]].
  apply lift_builtin_inr in Htimes. apply lift_builtin_inr in Hrows.
  simpl in Hpos. apply lift_library_inr in Hpos.
  apply positions_times in Hpos. apply sample_times_shape in Htimes.
  apply position_table_inr in Hrows.
  inversion H; subst p; clear H. cbn [tracking_name tracking_norad_id
    total_duration table chart].
  subst rows. repeat split.
  - etransitivity; [exact (table_times _ _ Hpos) |].
    rewrite Htimes. apply map_map.
  - eexists. eexists. unfold Plot.create_map. cbn [Plot.data app].
    split; [reflexivity |]. cbn [Plot.lon Plot.lat].
    split; [| split; reflexivity].
    apply table_coordinates.
Qed.

(** X23: with a record selected and at least one sample asked for, the
    only exceptions out of the tracking action are [OverflowError], when
    an instant falls outside the years 1 to 9999, and the exceptions of
    the library; the script adds no [TypeError], [KeyError] or
    [StopIteration] of its own. *)
Theorem track_exceptions (sat : Satellite) (current_time clock : datetime)
    (olat olon : Float rt) (num_samples time_interval : Z)
    (x : script_exn (Exn rt)) :
  track_button h (Bound (Some sat)) current_time clock olat olon
    num_samples time_interval = inl x ->
  1 <= num_samples ->
  x = Builtin OverflowError \/ exists e, x = Library e.
Proof.
  unfold track_button. intros H Hn.
  apply bind_raises in H. destruct H as [H | [times [Htimes H]]].
  - left. destruct (sample_times _ _ _) as [b|] eqn:Hs; simpl in H;
      [| discriminate].
    inversion H. f_equal. now apply sample_times_inl in Hs.
  - apply bind_raises in H. destruct H as [H | [positions [Hpos H]]].
    + right. simpl in H.
      destruct (calculate_satellite_positions _ _ _ _ _ _) as [e|];
        simpl in H; [| discriminate].
      inversion H. eauto.
    + exfalso. simpl in Hpos. apply lift_library_inr in Hpos.
      apply positions_times in Hpos.
      apply lift_builtin_inr in Htimes. apply sample_times_shape in Htimes.
      destruct positions as [|q qs].
      * simpl in Hpos. rewrite <- Hpos in Htimes.
        destruct (Z.to_nat num_samples) eqn:Hz; [lia | discriminate Htimes].
      * simpl in H. discriminate H.
Qed.

End Track.

Lemma track_after_failed_lookup_witness :
  track_button Samples.host (select_by_norad Samples.catalogue "99999")
    Samples.noon 0 28 91 3 60
  = inl (Builtin TypeError).
Proof.
  refine (proj1 (track_after_failed_lookup Samples.host Samples.catalogue
                   "99999" Samples.noon 0 28 91 3 60
                   [Samples.noon; Samples.noon + 60 * us_per_second;
                    Samples.noon + 120 * us_per_second] 28 91
                   _ _ _ _ _)).
  - discriminate.
  - repeat constructor; discriminate.
  - vm_compute. reflexivity.
  - vm_compute. reflexivity.
  - vm_compute. reflexivity.
Defined.

Lemma track_page_witness :
  total_duration Samples.shown = 120
  /\ map (fun row => fst (fst row)) (table Samples.shown)
     = ["12:00:00"; "12:01:00"; "12:02:00"]%string.
Proof.
  assert (H : track_button Samples.host (Bound (Some Toy.iss)) Samples.noon
                0 28 91 3 60 = inr (Shown Samples.shown))
    by (vm_compute; reflexivity).
  pose proof (track_page Samples.host Toy.iss Samples.noon 0 28 91 3 60
                Samples.shown H) as [_ [_ [Hd [Ht _]]]].
  split; [exact Hd | exact Ht].
Defined.

(** A clock that reads 23:58:20 on 9999-12-31: the third sample falls in
    year 10000. *)
Lemma track_exceptions_witness :
  track_button Samples.host (Bound (Some Toy.iss)) Samples.last_minutes
    0 28 91 3 60 = inl (Builtin OverflowError)
  /\ (@Builtin string OverflowError = Builtin OverflowError
      \/ exists e : string, @Builtin string OverflowError = Library e).
Proof.
  assert (H : track_button Samples.host (Bound (Some Toy.iss))
                Samples.last_minutes 0 28 91 3 60
              = inl (Builtin OverflowError)) by (vm_compute; reflexivity).
  split; [exact H |].
  exact (track_exceptions Samples.host Toy.iss Samples.last_minutes 0 28 91
           3 60 _ H ltac:(lia)).
Defined.

End ScriptFacts.
